(** * Currency swap form: latest-price reduction, rate computation,
      amount input validation and the conversion state

    Shallow embedding of [src/components/currency-selector.tsx] (the
    [getLatestTokenPrices] reduction and the [App] component's state, effect
    and handlers) together with models of the JavaScript built-ins the code
    calls: [Map], [parseFloat], [Number.prototype.toFixed], the regular
    expression [/^\d*\.?\d*$/] and the comparison of [Date] values.

    A JavaScript [number] is a binary64 float: Rocq's primitive [float].
    A JavaScript string is modelled by [string] (code units below 256). *)

From Stdlib Require Import ZArith List String Ascii Bool Lia Floats Permutation.
From Stdlib Require DecimalString.
Import ListNotations.

Local Open Scope string_scope.
Local Open Scope Z_scope.

(** ** JavaScript built-ins used by the component *)

Module JS.

(** *** Decimal digits *)

Definition is_digit (c : ascii) : bool :=
  let n := nat_of_ascii c in (48 <=? n)%nat && (n <=? 57)%nat.

Definition digit_value (c : ascii) : Z := Z.of_nat (nat_of_ascii c) - 48.

(** Longest prefix of decimal digits, and what follows it. *)
Fixpoint span_digits (s : string) : string * string :=
  match s with
  | String c r =>
      if is_digit c then let (ds, rest) := span_digits r in (String c ds, rest)
      else (EmptyString, s)
  | EmptyString => (EmptyString, EmptyString)
  end.

(** Mathematical value of a string of decimal digits. *)
Fixpoint digits_value (acc : Z) (ds : string) : Z :=
  match ds with
  | String c r => digits_value (10 * acc + digit_value c) r
  | EmptyString => acc
  end.

Definition string_of_Z (n : Z) : string :=
  DecimalString.NilZero.string_of_uint (N.to_uint (Z.to_N n)).

(** *** Numbers *)

(** The number nearest to the integer [v] (ties to even). *)
Definition Z2number (v : Z) : float :=
  SF2Prim (binary_normalize prec emax v 0 false).

(** The number nearest to [m * 10^e] for a mantissa [m >= 0]; [neg] is the
    sign of the literal, kept on a zero result. *)
Definition decimal2number (neg : bool) (m e : Z) : float :=
  if m =? 0 then (if neg then neg_zero else zero)
  else if 0 <=? e then Z2number ((if neg then - m else m) * 10 ^ e)
  else SF2Prim (SFdiv prec emax (S754_finite neg (Z.to_pos m) 0)
                                (S754_finite false (Z.to_pos (10 ^ (- e))) 0)).

(** *** [parseFloat] (ECMA-262, 19.2.4)

    Leading white space is dropped, then the longest prefix that is a
    [StrDecimalLiteral] is converted; [NaN] when there is none. *)

Definition is_white_space (c : ascii) : bool :=
  let n := nat_of_ascii c in
  ((9 <=? n)%nat && (n <=? 13)%nat) || (n =? 32)%nat || (n =? 160)%nat.

Fixpoint trim_start (s : string) : string :=
  match s with
  | String c r => if is_white_space c then trim_start r else s
  | EmptyString => EmptyString
  end.

Definition signed_digits (s : string) : option Z :=
  match s with
  | String "+" r =>
      let (ds, _) := span_digits r in
      if (ds =? "")%string then None else Some (digits_value 0 ds)
  | String "-" r =>
      let (ds, _) := span_digits r in
      if (ds =? "")%string then None else Some (- digits_value 0 ds)
  | _ =>
      let (ds, _) := span_digits s in
      if (ds =? "")%string then None else Some (digits_value 0 ds)
  end.

(** Value of the [ExponentPart] at the head of [s]; 0 when [s] does not
    start with a complete one (the prefix then ends before it). *)
Definition exponent_part (s : string) : Z :=
  match s with
  | String c r =>
      if (c =? "e")%char || (c =? "E")%char then
        match signed_digits r with Some e => e | None => 0 end
      else 0
  | EmptyString => 0
  end.

Variant literal : Type :=
  | LitInfinity
  | LitDecimal (m e : Z).

(** Longest prefix of [s] that is a [StrUnsignedDecimalLiteral]:
    [Infinity], [digits . digits? exp?], [. digits exp?] or [digits exp?]. *)
Definition unsigned_literal (s : string) : option literal :=
  if String.prefix "Infinity" s then Some LitInfinity
  else
    let (ip, r1) := span_digits s in
    match r1 with
    | String "." r2 =>
        let (fp, r3) := span_digits r2 in
        if (ip =? "")%string && (fp =? "")%string then None
        else Some (LitDecimal (digits_value 0 (ip ++ fp))
                              (exponent_part r3 - Z.of_nat (String.length fp)))
    | _ =>
        if (ip =? "")%string then None
        else Some (LitDecimal (digits_value 0 ip) (exponent_part r1))
    end.

Definition literal2number (neg : bool) (l : option literal) : float :=
  match l with
  | None => nan
  | Some LitInfinity => if neg then neg_infinity else infinity
  | Some (LitDecimal m e) => decimal2number neg m e
  end.

Definition parseFloat (s : string) : float :=
  match trim_start s with
  | String "+" r => literal2number false (unsigned_literal r)
  | String "-" r => literal2number true (unsigned_literal r)
  | t => literal2number false (unsigned_literal t)
  end.

Definition isNaN (x : float) : bool := is_nan x.

(** *** [Number.prototype.toFixed] (ECMA-262, 21.1.3.3) *)

Fixpoint zeros (n : nat) : string :=
  match n with
  | O => EmptyString
  | S n' => String "0" (zeros n')
  end.

(** [n / 10^f] written with exactly [f] fraction digits ([n >= 0]). *)
Definition fixed_digits (n : Z) (f : nat) : string :=
  let m := string_of_Z n in
  let k := String.length m in
  let m := if (k <=? f)%nat then zeros (f + 1 - k) ++ m else m in
  let k := String.length m in
  match f with
  | O => m
  | _ => substring 0 (k - f) m ++ "." ++ substring (k - f) f m
  end.

(** The integer [n] for which [n / 10^f] is nearest to [m * 2^e]
    ([m > 0]); the larger one when two are equally near. *)
Definition nearest_scaled (m e : Z) (f : nat) : Z :=
  let p := 10 ^ Z.of_nat f in
  if 0 <=? e then m * 2 ^ e * p
  else (2 * m * p + 2 ^ (- e)) / 2 ^ (1 - e).

(** [Number::toString] of an integral number [v >= 10^21]: the fewest
    significant digits that still denote the same number, in exponential
    form.  [n] is the number of digits of [v]; the search tries
    [k = n - steps', ...] significant digits. *)
Fixpoint shortest_decimal (x : float) (v : Z) (n : nat) (steps : nat) : Z :=
  match steps with
  | O => v
  | S steps' =>
      let k := (n - steps')%nat in
      let p := 10 ^ Z.of_nat (n - k) in
      let lo := v / p * p in
      let hi := lo + p in
      let oklo := (Z2number lo =? x)%float in
      let okhi := (Z2number hi =? x)%float in
      if oklo && okhi then
        match (v - lo) ?= (hi - v) with
        | Lt => lo
        | Gt => hi
        | Eq => if Z.even (v / p) then lo else hi
        end
      else if oklo then lo
      else if okhi then hi
      else shortest_decimal x v n steps'
  end.

Fixpoint strip_trailing_zeros (s : string) : string :=
  match s with
  | String c r =>
      match strip_trailing_zeros r with
      | EmptyString => if (c =? "0")%char then EmptyString else String c EmptyString
      | r' => String c r'
      end
  | EmptyString => EmptyString
  end.

Definition exponential_string (x : float) (v : Z) : string :=
  let n := String.length (string_of_Z v) in
  let w := shortest_decimal x v n n in
  let ds := string_of_Z w in
  let e := string_of_Z (Z.of_nat (String.length ds) - 1) in
  match strip_trailing_zeros ds with
  | String d EmptyString => String d ("e+" ++ e)
  | String d r => String d ("." ++ r ++ "e+" ++ e)
  | EmptyString => "0"
  end.

Definition toFixed (x : float) (fractionDigits : nat) : string :=
  match Prim2SF x with
  | S754_nan => "NaN"
  | S754_infinity false => "Infinity"
  | S754_infinity true => "-Infinity"
  | S754_zero _ => fixed_digits 0 fractionDigits
  | S754_finite s m e =>
      let sign := if s then "-" else "" in
      if (0 <=? e) && (10 ^ 21 <=? Zpos m * 2 ^ e)
      then sign ++ exponential_string (abs x) (Zpos m * 2 ^ e)
      else sign ++ fixed_digits (nearest_scaled (Zpos m) e fractionDigits) fractionDigits
  end.

(** *** Regular expressions

    The patterns of this program are sequences of single-character atoms,
    each taken once, optionally ([?]) or any number of times ([*]), between
    [^] and [$] (no flags, so the anchors are the ends of the input).
    Quantifiers are greedy and backtrack, as in ECMA-262 22.2.2. *)

Variant atom : Type :=
  | Digit                 (* \d *)
  | Char (c : ascii).     (* a literal character, such as \. *)

Variant term : Type :=
  | One (a : atom)
  | Opt (a : atom)        (* a? *)
  | Star (a : atom).      (* a* *)

Definition atom_matches (a : atom) (c : ascii) : bool :=
  match a with
  | Digit => is_digit c
  | Char d => (c =? d)%char
  end.

(** [match_here p s]: the terms [p] match [s] from its start to its end. *)
Fixpoint match_here (p : list term) (s : string) : bool :=
  match p with
  | [] => match s with EmptyString => true | _ => false end
  | One a :: p' =>
      match s with
      | String c r => atom_matches a c && match_here p' r
      | EmptyString => false
      end
  | Opt a :: p' =>
      match s with
      | String c r => (atom_matches a c && match_here p' r) || match_here p' s
      | EmptyString => match_here p' s
      end
  | Star a :: p' =>
      (fix star (s : string) : bool :=
         match s with
         | String c r => (atom_matches a c && star r) || match_here p' s
         | EmptyString => match_here p' s
         end) s
  end.

(** [/^p$/.test(s)] *)
Definition RegExp_test (p : list term) (s : string) : bool := match_here p s.

(** *** [Map] with string keys: entries in insertion order, one per key *)

Module Map.

Section WithValue.
Context {V : Type}.

Definition t : Type := list (string * V).

Definition empty : t := [].

Fixpoint get (m : t) (k : string) : option V :=
  match m with
  | [] => None
  | (k', v) :: m' => if (k' =? k)%string then Some v else get m' k
  end.

(** [set] overwrites the value of a key in place and appends a new key. *)
Fixpoint set (m : t) (k : string) (v : V) : t :=
  match m with
  | [] => [(k, v)]
  | (k', v') :: m' =>
      if (k' =? k)%string then (k, v) :: m' else (k', v') :: set m' k v
  end.

Definition entries (m : t) : list (string * V) := m.

Definition keys (m : t) : list string := map fst m.

End WithValue.

Arguments t : clear implicits.

End Map.

(** *** [Date]

    [new Date(s)] holds a time value: a whole number of milliseconds, or
    [NaN] (an invalid date), here [None].  [a > b] on two dates compares
    the time values as numbers, so it is false when either is [NaN]. *)

Definition time_value : Type := option Z.

Definition Date_gt (a b : time_value) : bool :=
  match a, b with
  | Some x, Some y => (y <? x)%Z
  | _, _ => false
  end.

(** Days from 1970-01-01 to the given day of the proleptic Gregorian
    calendar (ECMA-262 21.4.1.28, [MakeDay]). *)
Definition days_from_civil (y m d : Z) : Z :=
  let y' := if m <=? 2 then y - 1 else y in
  let era := y' / 400 in
  let yoe := y' - era * 400 in
  let doy := (153 * (if 2 <? m then m - 3 else m + 9) + 2) / 5 + d - 1 in
  let doe := yoe * 365 + yoe / 4 - yoe / 100 + doy in
  era * 146097 + doe - 719468.

Definition is_leap (y : Z) : bool :=
  ((y mod 4 =? 0) && negb (y mod 100 =? 0)) || (y mod 400 =? 0).

Definition days_in_month (y m : Z) : Z :=
  if m =? 2 then (if is_leap y then 29 else 28)
  else if (m =? 4) || (m =? 6) || (m =? 9) || (m =? 11) then 30 else 31.

(** [n] decimal digits at the head of [s]: their value and the rest. *)
Fixpoint take_digits (n : nat) (acc : Z) (s : string) : option (Z * string) :=
  match n with
  | O => Some (acc, s)
  | S n' =>
      match s with
      | String c r =>
          if is_digit c then take_digits n' (10 * acc + digit_value c) r else None
      | EmptyString => None
      end
  end.

Definition expect (c : ascii) (s : string) : option string :=
  match s with
  | String d r => if (c =? d)%char then Some r else None
  | EmptyString => None
  end.

Definition bind {A B : Type} (x : option A) (f : A -> option B) : option B :=
  match x with Some a => f a | None => None end.

(** A field that is present exactly when the separator [sep] comes
    next: the separator and [n] digits, or nothing. *)
Definition optional_field (sep : ascii) (n : nat) (s : string)
  : option (option Z * string) :=
  match s with
  | String c r =>
      if (c =? sep)%char
      then bind (take_digits n 0 r) (fun '(v, r') => Some (Some v, r'))
      else Some (None, s)
  | EmptyString => Some (None, s)
  end.

(** The UTC offset that ends a date-time string, in minutes east of
    Greenwich: [Z], [+HH:mm] or [-HH:mm]. *)
Definition utc_offset (s : string) : option Z :=
  match s with
  | String c r =>
      if (c =? "Z")%char then (if (r =? "")%string then Some 0 else None)
      else if (c =? "+")%char || (c =? "-")%char then
        bind (take_digits 2 0 r) (fun '(h, r) =>
        bind (expect ":" r) (fun r =>
        bind (take_digits 2 0 r) (fun '(mi, r) =>
        if (r =? "")%string && (h <? 24) && (mi <? 60)
        then Some ((if (c =? "-")%char then -1 else 1) * (h * 60 + mi))
        else None)))
      else None
  | EmptyString => None
  end.

(** The time forms [THH:mm], [THH:mm:ss] and [THH:mm:ss.sss] followed
    by a UTC offset: milliseconds to add to the UTC midnight of the
    date.  The hour 24 is the end of the day, with nothing after it. *)
Definition utc_time_of_day (s : string) : option Z :=
  bind (expect "T" s) (fun s =>
  bind (take_digits 2 0 s) (fun '(h, s) =>
  bind (expect ":" s) (fun s =>
  bind (take_digits 2 0 s) (fun '(mi, s) =>
  bind (optional_field ":" 2 s) (fun '(sec, s) =>
  bind (match sec with
        | Some _ => optional_field "." 3 s
        | None => Some (None, s)
        end) (fun '(ms, s) =>
  bind (utc_offset s) (fun offset =>
  let sec := match sec with Some v => v | None => 0 end in
  let ms := match ms with Some v => v | None => 0 end in
  if ((h <? 24) && (mi <? 60) && (sec <? 60))
     || ((h =? 24) && (mi =? 0) && (sec =? 0) && (ms =? 0))
  then Some (((h * 60 + mi) * 60 + sec) * 1000 + ms - offset * 60000)
  else None))))))).

(** Time value of a string in the date-time string format of ECMA-262
    (21.4.1.32) whose instant does not depend on the host: the date-only
    forms [YYYY], [YYYY-MM] and [YYYY-MM-DD], which are UTC, and these
    followed by a time form with a UTC offset, such as
    [YYYY-MM-DDTHH:mm:ss.sssZ], the form of the price feed.  The month
    must exist and the day must exist in its month.  What is left to the
    host is not modelled and gives [None] here: a time form without
    offset (local time), a day such as [02-30] (rolled over by some
    engines, invalid in others), the six-digit years and every string
    outside the format.  The reduction below takes the parser as a
    parameter; this one serves for the examples. *)
Definition Date_parse_utc (s : string) : time_value :=
  bind (take_digits 4 0 s) (fun '(y, s) =>
  bind (optional_field "-" 2 s) (fun '(m, s) =>
  bind (match m with
        | Some _ => optional_field "-" 2 s
        | None => Some (None, s)
        end) (fun '(d, s) =>
  let m := match m with Some v => v | None => 1 end in
  let d := match d with Some v => v | None => 1 end in
  if (1 <=? m) && (m <=? 12) && (1 <=? d) && (d <=? days_in_month y m) then
    let day := days_from_civil y m d * 86400000 in
    if (s =? "")%string then Some day
    else bind (utc_time_of_day s) (fun t => Some (day + t))
  else None))).

(** *** [String.prototype.toLowerCase] and [String.prototype.includes]

    For code units below 256 the lower-case mapping moves [A]-[Z] and the
    Latin-1 capitals ([U+00C0]-[U+00DE] but the sign [U+00D7]) 32 places
    up and leaves every other code unit alone. *)

Definition toLowerCase_char (c : ascii) : ascii :=
  let n := nat_of_ascii c in
  if ((65 <=? n)%nat && (n <=? 90)%nat)
     || ((192 <=? n)%nat && (n <=? 214)%nat)
     || ((216 <=? n)%nat && (n <=? 222)%nat)
  then ascii_of_nat (n + 32) else c.

Fixpoint toLowerCase (s : string) : string :=
  match s with
  | String c r => String (toLowerCase_char c) (toLowerCase r)
  | EmptyString => EmptyString
  end.

(** [s.includes(t)]: [t] occurs in [s] at some position. *)
Fixpoint includes (s t : string) : bool :=
  String.prefix t s
  || match s with
     | String _ r => includes r t
     | EmptyString => false
     end.

End JS.

Import JS.

(** ** The data model *)

(** [interface CurrencyPrice] *)
Record CurrencyPrice : Type := mkCurrencyPrice {
  currency : string;
  price : float;
  date : string
}.

(** The values of the [latestPrices] map: [{ price, date }]. *)
Record Latest : Type := mkLatest {
  latest_price : float;
  latest_date : string
}.

(** The observation a map entry stands for. *)
Definition entry (k : string) (v : Latest) : CurrencyPrice :=
  mkCurrencyPrice k (latest_price v) (latest_date v).

(** The state of [App]: one field per [useState] cell that the conversion
    logic reads or writes (the two dropdown flags belong to the picker). *)
Record AppState : Type := mkAppState {
  availableCurrencies : list CurrencyPrice;
  loading : bool;
  fetchError : option string;
  fromCurrency : string;
  toCurrency : string;
  fromAmount : string;
  toAmount : string;
  exchangeRate : option float;
  error : string;
  swapSuccess : bool
}.

Definition setAvailableCurrencies (v : list CurrencyPrice) (st : AppState) : AppState :=
  mkAppState v (loading st) (fetchError st) (fromCurrency st) (toCurrency st)
    (fromAmount st) (toAmount st) (exchangeRate st) (error st) (swapSuccess st).

Definition setLoading (v : bool) (st : AppState) : AppState :=
  mkAppState (availableCurrencies st) v (fetchError st) (fromCurrency st) (toCurrency st)
    (fromAmount st) (toAmount st) (exchangeRate st) (error st) (swapSuccess st).

Definition setFetchError (v : option string) (st : AppState) : AppState :=
  mkAppState (availableCurrencies st) (loading st) v (fromCurrency st) (toCurrency st)
    (fromAmount st) (toAmount st) (exchangeRate st) (error st) (swapSuccess st).

Definition setFromCurrency (v : string) (st : AppState) : AppState :=
  mkAppState (availableCurrencies st) (loading st) (fetchError st) v (toCurrency st)
    (fromAmount st) (toAmount st) (exchangeRate st) (error st) (swapSuccess st).

Definition setToCurrency (v : string) (st : AppState) : AppState :=
  mkAppState (availableCurrencies st) (loading st) (fetchError st) (fromCurrency st) v
    (fromAmount st) (toAmount st) (exchangeRate st) (error st) (swapSuccess st).

Definition setFromAmount (v : string) (st : AppState) : AppState :=
  mkAppState (availableCurrencies st) (loading st) (fetchError st) (fromCurrency st)
    (toCurrency st) v (toAmount st) (exchangeRate st) (error st) (swapSuccess st).

Definition setToAmount (v : string) (st : AppState) : AppState :=
  mkAppState (availableCurrencies st) (loading st) (fetchError st) (fromCurrency st)
    (toCurrency st) (fromAmount st) v (exchangeRate st) (error st) (swapSuccess st).

Definition setExchangeRate (v : option float) (st : AppState) : AppState :=
  mkAppState (availableCurrencies st) (loading st) (fetchError st) (fromCurrency st)
    (toCurrency st) (fromAmount st) (toAmount st) v (error st) (swapSuccess st).

Definition setError (v : string) (st : AppState) : AppState :=
  mkAppState (availableCurrencies st) (loading st) (fetchError st) (fromCurrency st)
    (toCurrency st) (fromAmount st) (toAmount st) (exchangeRate st) v (swapSuccess st).

Definition setSwapSuccess (v : bool) (st : AppState) : AppState :=
  mkAppState (availableCurrencies st) (loading st) (fetchError st) (fromCurrency st)
    (toCurrency st) (fromAmount st) (toAmount st) (exchangeRate st) (error st) v.

(** The [useState] defaults of [App]. *)
Definition initialState : AppState :=
  mkAppState [] true None "" "" "1.0" "" None "" false.

(** A string is truthy when it is not empty. *)
Definition truthy (s : string) : bool := negb (s =? "")%string.

(** ** The rate computation and the amount input *)

(** [currencyPrices]: the memoised price lookup table. *)
Definition currencyPrices (available : list CurrencyPrice) : Map.t float :=
  fold_left (fun prices c => Map.set prices (currency c) (price c)) available Map.empty.

Definition rate_unavailable_message : string :=
  "Exchange rate not available for selected currencies.".

Definition invalid_amount_message : string :=
  "Please enter a valid amount to send.".

(** The effect that recalculates the exchange rate and [toAmount]. *)
Definition recompute (st : AppState) : AppState :=
  let prices := currencyPrices (availableCurrencies st) in
  let st1 := setSwapSuccess false (setError "" st) in
  match Map.get prices (fromCurrency st), Map.get prices (toCurrency st) with
  | Some fromPrice, Some toPrice =>
      let rate := (toPrice / fromPrice)%float in
      let st2 := setExchangeRate (Some rate) st1 in
      let amount := parseFloat (fromAmount st) in
      if negb (isNaN amount) && (0 <? amount)%float then
        setToAmount (toFixed (amount * rate)%float 6) st2
      else
        setError invalid_amount_message (setToAmount "" st2)
  | _, _ =>
      let st2 := setToAmount "" (setExchangeRate None st1) in
      if truthy (fromCurrency st) && truthy (toCurrency st) && negb (loading st)
      then setError rate_unavailable_message st2
      else st2
  end.

(** What the effect decides, as a value: the three outcomes of the
    branches at lines 183 and 196 with the numbers each one computes. *)
Variant ConversionResult : Type :=
  | Converted (rate outputAmount : float)
  | InvalidAmount (rate : float)
  | Unavailable.

Definition computeConversion (index : Map.t float) (from to amountText : string)
  : ConversionResult :=
  match Map.get index from, Map.get index to with
  | Some fromPrice, Some toPrice =>
      let rate := (toPrice / fromPrice)%float in
      let amount := parseFloat amountText in
      if negb (isNaN amount) && (0 <? amount)%float
      then Converted rate (amount * rate)%float
      else InvalidAmount rate
  | _, _ => Unavailable
  end.

(** The pattern of [handleFromAmountChange]: [/^\d*\.?\d*$/]. *)
Definition amount_pattern : list term := [Star Digit; Opt (Char "."); Star Digit].

Definition handleFromAmountChange (value : string) (st : AppState) : AppState :=
  if RegExp_test amount_pattern value || (value =? "")%string
  then setFromAmount value st
  else st.

(** Both setters receive the values of the render that created the
    handler, and their updates are applied together before the next
    render: no render sees only the first one. *)
Definition handleCurrencySwap (st : AppState) : AppState :=
  setToCurrency (fromCurrency st) (setFromCurrency (toCurrency st) st).

(** The grammar of an amount in words: digits, then at most one decimal
    point, then digits; each part may be empty. *)
Definition all_digits (s : string) : Prop :=
  Forall (fun c => is_digit c = true) (list_ascii_of_string s).

Definition decimal_grammar (s : string) : Prop :=
  exists a b : string,
    all_digits a /\ all_digits b /\ (s = a ++ b \/ s = a ++ "." ++ b)%string.

(** The distinct elements of a list in the order of their first occurrence. *)
Fixpoint first_occurrences (l : list string) : list string :=
  match l with
  | [] => []
  | x :: l' => x :: filter (fun y => negb (y =? x)%string) (first_occurrences l')
  end.

(** ** The reduction of the feed and the controller *)

Section WithDate.

(** [new Date(s).valueOf()]: which strings are dates, beyond the standard
    format, is the host's choice. *)
Variable Date_parse : string -> time_value.

(** One turn of the [forEach] in [getLatestTokenPrices]. *)
Definition keep_latest (latestPrices : Map.t Latest) (item : CurrencyPrice)
  : Map.t Latest :=
  let existing := Map.get latestPrices (currency item) in
  let newItemDate := Date_parse (date item) in
  match existing with
  | None => Map.set latestPrices (currency item) (mkLatest (price item) (date item))
  | Some e =>
      if Date_gt newItemDate (Date_parse (latest_date e))
      then Map.set latestPrices (currency item) (mkLatest (price item) (date item))
      else latestPrices
  end.

(** The [latestPrices] map once the [forEach] has run over [data]. *)
Definition latestPrices (data : list CurrencyPrice) : Map.t Latest :=
  fold_left keep_latest data Map.empty.

Definition getLatestTokenPrices (data : list CurrencyPrice) : list CurrencyPrice :=
  map (fun '(currency, data) => mkCurrencyPrice currency (latest_price data) (latest_date data))
      (Map.entries (latestPrices data)).

(** [fetchData] up to its first [await]. *)
Definition fetchStarted (st : AppState) : AppState :=
  setFetchError None (setLoading true st).

(** [fetchData] once the response has been read as [data]: the [try]
    block after the [await]s, then the [finally] block. *)
Definition fetchResolved (data : list CurrencyPrice) (st : AppState) : AppState :=
  let processedCurrencies := getLatestTokenPrices data in
  let st := setAvailableCurrencies processedCurrencies st in
  let st :=
    match processedCurrencies with
    | c0 :: rest =>
        let st := setFromCurrency (currency c0) st in
        match rest with
        | c1 :: _ => setToCurrency (currency c1) st
        | [] => setToCurrency (currency c0) st
        end
    | [] => st
    end in
  setLoading false st.

(** [fetchData] when the request or its decoding throws: the [catch]
    block, then the [finally] block. *)
Definition fetchFailed (errorMessage : string) (st : AppState) : AppState :=
  let st := setFetchError (Some ("Failed to fetch currency data: " ++ errorMessage)) st in
  setLoading false st.

(** What can happen to the mounted component. *)
Variant event : Type :=
  | FetchStarted
  | FetchResolved (data : list CurrencyPrice)
  | FetchFailed (errorMessage : string)
  | SelectFrom (currency : string)
  | SelectTo (currency : string)
  | AmountInput (value : string)
  | SwapClick.

Definition handle (ev : event) (st : AppState) : AppState :=
  match ev with
  | FetchStarted => fetchStarted st
  | FetchResolved data => fetchResolved data st
  | FetchFailed msg => fetchFailed msg st
  | SelectFrom c => setFromCurrency c st
  | SelectTo c => setToCurrency c st
  | AmountInput value => handleFromAmountChange value st
  | SwapClick => handleCurrencySwap st
  end.

(** The states of the component: the initial one, and the ones an event
    handler or a run of the recalculation effect leads to. *)
Inductive reachable : AppState -> Prop :=
  | reachable_initial : reachable initialState
  | reachable_handle ev st : reachable st -> reachable (handle ev st)
  | reachable_effect st : reachable st -> reachable (recompute st).

(** [a] is later than [b], as the reduction compares them. *)
Definition later (a b : string) : bool := Date_gt (Date_parse a) (Date_parse b).

End WithDate.

(** ** Example inputs *)

Definition feed : list CurrencyPrice :=
  [ mkCurrencyPrice "BTC" 50000 "2024-01-01";
    mkCurrencyPrice "BTC" 51000 "2024-01-02";
    mkCurrencyPrice "ETH" 3000 "2024-01-01" ].

(** The state once [feed] has been fetched. *)
Definition ready_state : AppState :=
  fetchResolved Date_parse_utc feed (fetchStarted initialState).

(** The state once an empty feed has been fetched. *)
Definition empty_feed_state : AppState :=
  fetchResolved Date_parse_utc [] (fetchStarted initialState).

(** [ready_state] after the amount field has been emptied. *)
Definition empty_amount_state : AppState := setFromAmount "" ready_state.

(** Two observations of one currency on the same date. *)
Definition tie_feed : list CurrencyPrice :=
  [ mkCurrencyPrice "A" 1 "2024-01-01";
    mkCurrencyPrice "A" 2 "2024-01-01" ].

(** A feed in which a currency has the price zero, the index it gives,
    and the state once it has been fetched and the amount ["1"] entered. *)
Definition zero_price_feed : list CurrencyPrice :=
  [ mkCurrencyPrice "A" 0 "2024-01-01";
    mkCurrencyPrice "B" 1 "2024-01-01" ].

Definition zero_price_index : Map.t float := [("A", 0%float); ("B", 1%float)].

Definition zero_price_state : AppState :=
  handleFromAmountChange "1"
    (fetchResolved Date_parse_utc zero_price_feed (fetchStarted initialState)).

(** ** The currency picker and what is rendered *)

(** [filteredCurrencies] of [CurrencySelector]. *)
Definition filteredCurrencies (availableCurrencies : list CurrencyPrice)
  (searchTerm : string) : list CurrencyPrice :=
  filter (fun c => includes (toLowerCase (currency c)) (toLowerCase searchTerm))
         availableCurrencies.

(** The text of the picker's button: [selectedCurrency || label]. *)
Definition buttonText (selectedCurrency label : string) : string :=
  if truthy selectedCurrency then selectedCurrency else label.

(** What [App] returns: one of its three [return] statements, with the
    parts of the form that depend on the state. *)
Record FormView : Type := mkFormView {
  fromAmountValue : string;
  toAmountValue : string;
  fromButton : string;
  toButton : string;
  rateLine : option string;
  errorAlert : option string;
  successBanner : bool
}.

Variant Screen : Type :=
  | LoadingScreen
  | FetchErrorScreen (message : string)
  | SwapForm (form : FormView).

Definition formView (st : AppState) : FormView :=
  mkFormView (fromAmount st) (toAmount st)
    (buttonText (fromCurrency st) "Select Currency")
    (buttonText (toCurrency st) "Select Currency")
    (match exchangeRate st with
     | Some rate =>
         if truthy (fromCurrency st) && truthy (toCurrency st)
            && negb (fromCurrency st =? toCurrency st)%string
         then Some ("1 " ++ fromCurrency st ++ " = " ++ toFixed rate 6
                         ++ " " ++ toCurrency st)
         else None
     | None => None
     end)
    (if truthy (error st) then Some (error st) else None)
    (swapSuccess st).

Definition render (st : AppState) : Screen :=
  if loading st then LoadingScreen
  else
    match fetchError st with
    | Some message => if truthy message then FetchErrorScreen message
                      else SwapForm (formView st)
    | None => SwapForm (formView st)
    end.

(** The component with its two pickers: the state of [App], the two
    dropdown flags of [App] and the search term of each [CurrencySelector]. *)
Record UIState : Type := mkUIState {
  appState : AppState;
  showFromDropdown : bool;
  showToDropdown : bool;
  fromSearchTerm : string;
  toSearchTerm : string
}.

Variant side : Type := FromSide | ToSide.

Definition initialUI : UIState := mkUIState initialState false false "" "".

Definition withApp (f : AppState -> AppState) (ui : UIState) : UIState :=
  mkUIState (f (appState ui)) (showFromDropdown ui) (showToDropdown ui)
    (fromSearchTerm ui) (toSearchTerm ui).

Definition isOpen (s : side) (ui : UIState) : bool :=
  match s with FromSide => showFromDropdown ui | ToSide => showToDropdown ui end.

Definition searchTerm (s : side) (ui : UIState) : string :=
  match s with FromSide => fromSearchTerm ui | ToSide => toSearchTerm ui end.

Definition setIsOpen (s : side) (v : bool) (ui : UIState) : UIState :=
  match s with
  | FromSide => mkUIState (appState ui) v (showToDropdown ui) (fromSearchTerm ui) (toSearchTerm ui)
  | ToSide => mkUIState (appState ui) (showFromDropdown ui) v (fromSearchTerm ui) (toSearchTerm ui)
  end.

Definition setSearchTerm (s : side) (v : string) (ui : UIState) : UIState :=
  match s with
  | FromSide => mkUIState (appState ui) (showFromDropdown ui) (showToDropdown ui) v (toSearchTerm ui)
  | ToSide => mkUIState (appState ui) (showFromDropdown ui) (showToDropdown ui) (fromSearchTerm ui) v
  end.

(** The [onSelect] prop of each picker. *)
Definition onSelect (s : side) (c : string) (ui : UIState) : UIState :=
  match s with
  | FromSide => withApp (setFromCurrency c) ui
  | ToSide => withApp (setToCurrency c) ui
  end.

(** The items the open list of a picker shows. *)
Definition listItems (s : side) (ui : UIState) : list CurrencyPrice :=
  if isOpen s ui
  then filteredCurrencies (availableCurrencies (appState ui)) (searchTerm s ui)
  else [].

(** The [onClick] of the [i]-th item of a picker's list; there is nothing
    to click when the list is closed or shorter. *)
Definition itemClick (s : side) (i : nat) (ui : UIState) : UIState :=
  match nth_error (listItems s ui) i with
  | Some item => setSearchTerm s "" (setIsOpen s false (onSelect s (currency item) ui))
  | None => ui
  end.

(** [handleClickOutside] of one picker: [inside] tells whether the target
    of the [mousedown] lies in that picker. *)
Definition handleClickOutside (s : side) (inside : bool) (ui : UIState) : UIState :=
  if negb inside then setIsOpen s false ui else ui.

Section WithDateUI.

Variable Date_parse : string -> time_value.

(** What the user and the fetch can do to the mounted component. *)
Variant ui_event : Type :=
  | UIFetchStarted
  | UIFetchResolved (data : list CurrencyPrice)
  | UIFetchFailed (errorMessage : string)
  | ToggleClick (s : side)
  | SearchInput (s : side) (value : string)
  | ItemClick (s : side) (i : nat)
  | MouseDown (target : option side)
  | UIAmountInput (value : string)
  | UISwapClick.

Definition ui_handle (ev : ui_event) (ui : UIState) : UIState :=
  match ev with
  | UIFetchStarted => withApp fetchStarted ui
  | UIFetchResolved data => withApp (fetchResolved Date_parse data) ui
  | UIFetchFailed msg => withApp (fetchFailed msg) ui
  | ToggleClick s => setIsOpen s (negb (isOpen s ui)) ui
  | SearchInput s value => setSearchTerm s value ui
  | ItemClick s i => itemClick s i ui
  | MouseDown target =>
      handleClickOutside ToSide (match target with Some ToSide => true | _ => false end)
        (handleClickOutside FromSide
           (match target with Some FromSide => true | _ => false end) ui)
  | UIAmountInput value => withApp (handleFromAmountChange value) ui
  | UISwapClick => withApp handleCurrencySwap ui
  end.

(** The states the component goes through when currencies are chosen
    with the pickers. *)
Inductive ui_reachable : UIState -> Prop :=
  | ui_reachable_initial : ui_reachable initialUI
  | ui_reachable_handle ev ui : ui_reachable ui -> ui_reachable (ui_handle ev ui)
  | ui_reachable_effect ui : ui_reachable ui -> ui_reachable (withApp recompute ui).

(** The state after a list of events, the effect running after each. *)
Definition run (evs : list event) (st : AppState) : AppState :=
  fold_left (fun st ev => recompute (handle Date_parse ev st)) evs st.

End WithDateUI.

Definition is_fetch_started (ev : event) : bool :=
  match ev with FetchStarted => true | _ => false end.

Definition is_fetch_settled (ev : event) : bool :=
  match ev with FetchResolved _ | FetchFailed _ => true | _ => false end.

(** The component once [feed] has been fetched, the to-picker opened and
    the letter [b] typed in its search box. *)
Definition searching_state : UIState :=
  ui_handle Date_parse_utc (SearchInput ToSide "b")
    (ui_handle Date_parse_utc (ToggleClick ToSide)
       (ui_handle Date_parse_utc (UIFetchResolved feed)
          (ui_handle Date_parse_utc UIFetchStarted initialUI))).

(** ** Numbers: the facts about binary64 division and product used below *)

Section NumberFacts.

Local Open Scope float_scope.

Lemma SF_of_finite_nonzero (x : float) :
  is_finite x = true -> is_zero x = false ->
  exists s m e, Prim2SF x = S754_finite s m e.
Proof.
  unfold is_finite, is_nan, is_infinity, is_zero.
  rewrite !eqb_spec, abs_spec.
  change (Prim2SF zero) with (S754_zero false).
  change (Prim2SF infinity) with (S754_infinity false).
  destruct (Prim2SF x) as [s | s | | s m e]; try discriminate.
  - now destruct s.
  - intros _ _. now exists s, m, e.
Qed.

Lemma SF_of_positive (x : float) :
  (0 <? x) = true ->
  Prim2SF x = S754_infinity false \/ exists m e, Prim2SF x = S754_finite false m e.
Proof.
  rewrite ltb_spec.
  change (Prim2SF 0) with (S754_zero false).
  destruct (Prim2SF x) as [s | s | | s m e]; try discriminate.
  - destruct s; [discriminate | now left].
  - destruct s; [discriminate | right; now exists m, e].
Qed.

Lemma SFdiv_core_self (m : positive) (e : Z) :
  SFdiv_core_binary prec emax (Zpos m) e (Zpos m) e = (2 ^ 53, -53, loc_Exact)%Z.
Proof.
  unfold SFdiv_core_binary.
  replace (Zdigits2 (Zpos m) + e - (Zdigits2 (Zpos m) + e))%Z with 0%Z by lia.
  replace (e - e)%Z with 0%Z by lia.
  change (Z.min (fexp prec emax 0) 0) with (-53)%Z.
  change (0 - -53)%Z with 53%Z. cbv iota.
  rewrite Z.shiftl_mul_pow2 by lia.
  assert (Hq : (Zpos m * 2 ^ 53 / Zpos m = 2 ^ 53)%Z).
  { rewrite Z.mul_comm. apply Z.div_mul. discriminate. }
  assert (Hr : ((Zpos m * 2 ^ 53) mod Zpos m = 0)%Z).
  { rewrite Z.mul_comm. apply Z.mod_mul. discriminate. }
  unfold Z.div in Hq. unfold Z.modulo in Hr.
  destruct (Z.div_eucl (Zpos m * 2 ^ 53) (Zpos m)) as [q r].
  subst q r. unfold new_location.
  destruct (Z.even (Zpos m)); reflexivity.
Qed.

(** A finite number other than zero divided by itself is exactly 1. *)
Lemma div_self (x : float) :
  is_finite x = true -> is_zero x = false -> x / x = 1.
Proof.
  intros Hf Hz. destruct (SF_of_finite_nonzero x Hf Hz) as (s & m & e & Hx).
  apply Prim2SF_inj. rewrite div_spec, Hx.
  unfold SF64div, SFdiv. rewrite SFdiv_core_self.
  destruct s; vm_compute; reflexivity.
Qed.

(** A positive number divided by zero is [Infinity]. *)
Lemma div_positive_zero (x : float) :
  (0 <? x) = true -> x / 0 = infinity.
Proof.
  intros Hx. apply Prim2SF_inj. rewrite div_spec.
  change (Prim2SF 0) with (S754_zero false).
  change (Prim2SF infinity) with (S754_infinity false).
  destruct (SF_of_positive x Hx) as [H | (m & e & H)]; rewrite H; reflexivity.
Qed.

(** A positive number times [Infinity] is [Infinity]. *)
Lemma mul_positive_infinity (x : float) :
  (0 <? x) = true -> x * infinity = infinity.
Proof.
  intros Hx. apply Prim2SF_inj. rewrite mul_spec.
  change (Prim2SF infinity) with (S754_infinity false).
  destruct (SF_of_positive x Hx) as [H | (m & e & H)]; rewrite H; reflexivity.
Qed.

(** Zero divided by a finite positive number is zero. *)
Lemma div_zero_positive (x : float) :
  (0 <? x) = true -> is_finite x = true -> 0 / x = 0.
Proof.
  intros Hx Hf. apply Prim2SF_inj. rewrite div_spec.
  change (Prim2SF 0) with (S754_zero false).
  destruct (SF_of_positive x Hx) as [H | (m & e & H)]; rewrite H; [| reflexivity].
  exfalso. revert Hf. unfold is_finite, is_nan, is_infinity.
  rewrite !eqb_spec, abs_spec, H. discriminate.
Qed.

(** A finite positive number times zero is zero. *)
Lemma mul_positive_zero (x : float) :
  (0 <? x) = true -> is_finite x = true -> x * 0 = 0.
Proof.
  intros Hx Hf. apply Prim2SF_inj. rewrite mul_spec.
  change (Prim2SF 0) with (S754_zero false).
  destruct (SF_of_positive x Hx) as [H | (m & e & H)]; rewrite H; [| reflexivity].
  exfalso. revert Hf. unfold is_finite, is_nan, is_infinity.
  rewrite !eqb_spec, abs_spec, H. discriminate.
Qed.

(** The two zeros of binary64 are the only numbers that [is_zero] holds of. *)
Lemma is_zero_cases (z : float) :
  is_zero z = true -> z = 0 \/ z = neg_zero.
Proof.
  unfold is_zero. rewrite eqb_spec.
  change (Prim2SF zero) with (S754_zero false).
  destruct (Prim2SF z) as [s | s | | s m e] eqn:E; try discriminate.
  - intros _. destruct s; [right | left]; apply Prim2SF_inj; rewrite E; reflexivity.
  - now destruct s.
  - now destruct s.
Qed.

(** A positive number divided by the negative zero is [-Infinity]. *)
Lemma div_positive_neg_zero (x : float) :
  (0 <? x) = true -> x / neg_zero = neg_infinity.
Proof.
  intros Hx. apply Prim2SF_inj. rewrite div_spec.
  change (Prim2SF neg_zero) with (S754_zero true).
  change (Prim2SF neg_infinity) with (S754_infinity true).
  destruct (SF_of_positive x Hx) as [H | (m & e & H)]; rewrite H; reflexivity.
Qed.

(** A positive number times [-Infinity] is [-Infinity]. *)
Lemma mul_positive_neg_infinity (x : float) :
  (0 <? x) = true -> x * neg_infinity = neg_infinity.
Proof.
  intros Hx. apply Prim2SF_inj. rewrite mul_spec.
  change (Prim2SF neg_infinity) with (S754_infinity true).
  destruct (SF_of_positive x Hx) as [H | (m & e & H)]; rewrite H; reflexivity.
Qed.

(** The negative zero divided by a finite positive number is the
    negative zero. *)
Lemma div_neg_zero_positive (x : float) :
  (0 <? x) = true -> is_finite x = true -> neg_zero / x = neg_zero.
Proof.
  intros Hx Hf. apply Prim2SF_inj. rewrite div_spec.
  change (Prim2SF neg_zero) with (S754_zero true).
  destruct (SF_of_positive x Hx) as [H | (m & e & H)]; rewrite H; [| reflexivity].
  exfalso. revert Hf. unfold is_finite, is_nan, is_infinity.
  rewrite !eqb_spec, abs_spec, H. discriminate.
Qed.

(** A finite positive number times the negative zero is the negative
    zero. *)
Lemma mul_positive_neg_zero (x : float) :
  (0 <? x) = true -> is_finite x = true -> x * neg_zero = neg_zero.
Proof.
  intros Hx Hf. apply Prim2SF_inj. rewrite mul_spec.
  change (Prim2SF neg_zero) with (S754_zero true).
  destruct (SF_of_positive x Hx) as [H | (m & e & H)]; rewrite H; [| reflexivity].
  exfalso. revert Hf. unfold is_finite, is_nan, is_infinity.
  rewrite !eqb_spec, abs_spec, H. discriminate.
Qed.

End NumberFacts.

(** ** The recalculation effect *)

Section Recompute.

Local Open Scope float_scope.

(** The effect only writes [error], [swapSuccess], [exchangeRate] and
    [toAmount]. *)
Lemma recompute_preserves (st : AppState) :
  availableCurrencies (recompute st) = availableCurrencies st /\
  loading (recompute st) = loading st /\
  fetchError (recompute st) = fetchError st /\
  fromCurrency (recompute st) = fromCurrency st /\
  toCurrency (recompute st) = toCurrency st /\
  fromAmount (recompute st) = fromAmount st.
Proof.
  unfold recompute. cbv zeta.
  destruct (Map.get (currencyPrices (availableCurrencies st)) (fromCurrency st)),
           (Map.get (currencyPrices (availableCurrencies st)) (toCurrency st));
    repeat match goal with |- context [if ?b then _ else _] => destruct b end;
    repeat split.
Qed.

Lemma finite_not_nan (x : float) : is_finite x = true -> isNaN x = false.
Proof.
  unfold is_finite, isNaN. destruct (is_nan x); [discriminate | reflexivity].
Qed.

Lemma substring_dot_nonempty (a b : string) : (a ++ "." ++ b)%string <> ""%string.
Proof. destruct a; discriminate. Qed.

Lemma append_nonempty (a b : string) : b <> ""%string -> (a ++ b)%string <> ""%string.
Proof. destruct a; [trivial | discriminate]. Qed.

(** [toFixed(6)] never yields the empty string. *)
Lemma toFixed_nonempty (x : float) : toFixed x 6 <> ""%string.
Proof.
  unfold toFixed.
  destruct (Prim2SF x) as [s | s | | s m e].
  - discriminate.
  - destruct s; discriminate.
  - discriminate.
  - destruct ((0 <=? e)%Z && (10 ^ 21 <=? Zpos m * 2 ^ e)%Z).
    + apply append_nonempty. unfold exponential_string.
      destruct (strip_trailing_zeros _) as [| d [| d' r]]; discriminate.
    + apply append_nonempty. unfold fixed_digits.
      apply substring_dot_nonempty.
Qed.

(** The branch taken when both prices are found and the amount is valid. *)
Lemma converted_branch
  (index : Map.t float) (from to amountText : string) (fromPrice toPrice : float) :
  Map.get index from = Some fromPrice ->
  Map.get index to = Some toPrice ->
  isNaN (parseFloat amountText) = false ->
  (0 <? parseFloat amountText) = true ->
  computeConversion index from to amountText
    = Converted (toPrice / fromPrice) (parseFloat amountText * (toPrice / fromPrice))
  /\ forall st : AppState,
       currencyPrices (availableCurrencies st) = index ->
       fromCurrency st = from -> toCurrency st = to -> fromAmount st = amountText ->
       exchangeRate (recompute st) = Some (toPrice / fromPrice) /\
       toAmount (recompute st)
         = toFixed (parseFloat amountText * (toPrice / fromPrice)) 6 /\
       error (recompute st) = ""%string.
Proof.
  intros Hfrom Hto Hnan Hpos. split.
  - unfold computeConversion. rewrite Hfrom, Hto, Hnan, Hpos. reflexivity.
  - intros st Hidx Hf Ht Ha. unfold recompute.
    rewrite Hidx, Hf, Ht, Ha, Hfrom, Hto, Hnan, Hpos. repeat split.
Qed.

(** C1: when both currencies are keys of the index and the amount text
    parses to a finite number greater than zero, the result is [Converted]
    with rate [price(to) / price(from)] and output amount
    [amount * rate]; the effect stores that rate, the output amount
    written with six fraction digits, and no error message. *)
Theorem computeConversion_converted
  (index : Map.t float) (from to amountText : string) (fromPrice toPrice : float) :
  Map.get index from = Some fromPrice ->
  Map.get index to = Some toPrice ->
  is_finite (parseFloat amountText) = true ->
  (0 <? parseFloat amountText) = true ->
  computeConversion index from to amountText
    = Converted (toPrice / fromPrice) (parseFloat amountText * (toPrice / fromPrice))
  /\ forall st : AppState,
       currencyPrices (availableCurrencies st) = index ->
       fromCurrency st = from -> toCurrency st = to -> fromAmount st = amountText ->
       exchangeRate (recompute st) = Some (toPrice / fromPrice) /\
       toAmount (recompute st)
         = toFixed (parseFloat amountText * (toPrice / fromPrice)) 6 /\
       error (recompute st) = ""%string.
Proof.
  intros Hfrom Hto Hfin Hpos.
  apply converted_branch; auto using finite_not_nan.
Qed.

Lemma computeConversion_converted_witness :
  computeConversion [("BTC", 51000); ("ETH", 3000)]%string "BTC" "ETH" "2"
    = Converted (3000 / 51000) (parseFloat "2" * (3000 / 51000))
  /\ forall st : AppState,
       currencyPrices (availableCurrencies st) = [("BTC", 51000); ("ETH", 3000)]%string ->
       fromCurrency st = "BTC"%string -> toCurrency st = "ETH"%string ->
       fromAmount st = "2"%string ->
       exchangeRate (recompute st) = Some (3000 / 51000) /\
       toAmount (recompute st) = toFixed (parseFloat "2" * (3000 / 51000)) 6 /\
       error (recompute st) = ""%string.
Proof.
  apply (computeConversion_converted
           [("BTC", 51000); ("ETH", 3000)]%string "BTC" "ETH" "2" 51000 3000);
    reflexivity.
Defined.

(** The state the effect leaves is determined by the outcome. *)
Lemma recompute_by_outcome (st : AppState) :
  match computeConversion (currencyPrices (availableCurrencies st))
          (fromCurrency st) (toCurrency st) (fromAmount st) with
  | Converted rate outputAmount =>
      exchangeRate (recompute st) = Some rate /\
      toAmount (recompute st) = toFixed outputAmount 6 /\
      error (recompute st) = ""%string
  | InvalidAmount rate =>
      exchangeRate (recompute st) = Some rate /\
      toAmount (recompute st) = ""%string /\
      error (recompute st) = invalid_amount_message
  | Unavailable =>
      exchangeRate (recompute st) = None /\
      toAmount (recompute st) = ""%string /\
      error (recompute st)
        = if truthy (fromCurrency st) && truthy (toCurrency st) && negb (loading st)
          then rate_unavailable_message else ""%string
  end.
Proof.
  unfold computeConversion, recompute. cbv zeta.
  destruct (Map.get (currencyPrices (availableCurrencies st)) (fromCurrency st)) as [fp |],
           (Map.get (currencyPrices (availableCurrencies st)) (toCurrency st)) as [tp |];
    repeat match goal with |- context [if ?b then _ else _] => destruct b end;
    repeat split.
Qed.

End Recompute.

(** ** The outcomes of the recalculation *)

Section Outcomes.

Local Open Scope float_scope.

Lemma positive_not_nan (x : float) : (0 <? x) = true -> isNaN x = false.
Proof.
  intros H. destruct (SF_of_positive x H) as [Hx | (m & e & Hx)];
    unfold isNaN, is_nan; rewrite eqb_spec, Hx.
  - reflexivity.
  - unfold SFeqb, SFcompare. rewrite Z.compare_refl, Pos.compare_cont_refl. reflexivity.
Qed.

(** C4, as the code has it: on [Converted] the effect sets the rate and a
    non-empty [toAmount] and leaves no error message; on [InvalidAmount]
    it clears [toAmount] and sets a message but keeps the rate it has
    computed; on [Unavailable] it clears the rate and [toAmount], and sets
    a message exactly when both currencies are non-empty and the feed is
    no longer loading. *)
Theorem recompute_sets_or_clears (st : AppState) :
  match computeConversion (currencyPrices (availableCurrencies st))
          (fromCurrency st) (toCurrency st) (fromAmount st) with
  | Converted rate outputAmount =>
      exchangeRate (recompute st) = Some rate /\
      toAmount (recompute st) = toFixed outputAmount 6 /\
      toAmount (recompute st) <> ""%string /\
      error (recompute st) = ""%string
  | InvalidAmount rate =>
      exchangeRate (recompute st) = Some rate /\
      toAmount (recompute st) = ""%string /\
      error (recompute st) = invalid_amount_message /\
      error (recompute st) <> ""%string
  | Unavailable =>
      exchangeRate (recompute st) = None /\
      toAmount (recompute st) = ""%string /\
      error (recompute st)
        = if truthy (fromCurrency st) && truthy (toCurrency st) && negb (loading st)
          then rate_unavailable_message else ""%string
  end.
Proof.
  pose proof (recompute_by_outcome st) as H.
  destruct (computeConversion _ _ _ _) as [rate out | rate |].
  - destruct H as (Hr & Ha & He). repeat split; trivial.
    rewrite Ha. apply toFixed_nonempty.
  - destruct H as (Hr & Ha & He). repeat split; trivial.
    rewrite He. discriminate.
  - exact H.
Qed.

(** C4 as stated fails: with an empty amount the outcome is
    [InvalidAmount] and the rate stays set; with no currency selected the
    outcome is [Unavailable] and no message is set.  So it is not true
    that every outcome other than [Converted] clears the rate and sets a
    message. *)
Lemma recompute_keeps_rate_or_sets_no_message :
  (computeConversion (currencyPrices (availableCurrencies empty_amount_state))
     (fromCurrency empty_amount_state) (toCurrency empty_amount_state)
     (fromAmount empty_amount_state) = InvalidAmount (3000 / 51000)
   /\ exchangeRate (recompute empty_amount_state) = Some (3000 / 51000))
  /\ (computeConversion (currencyPrices (availableCurrencies empty_feed_state))
        (fromCurrency empty_feed_state) (toCurrency empty_feed_state)
        (fromAmount empty_feed_state) = Unavailable
      /\ error (recompute empty_feed_state) = ""%string)
  /\ ~ (forall st : AppState,
          match computeConversion (currencyPrices (availableCurrencies st))
                  (fromCurrency st) (toCurrency st) (fromAmount st) with
          | Converted rate _ =>
              exchangeRate (recompute st) = Some rate /\
              toAmount (recompute st) <> ""%string /\
              error (recompute st) = ""%string
          | InvalidAmount _ | Unavailable =>
              exchangeRate (recompute st) = None /\
              toAmount (recompute st) = ""%string /\
              error (recompute st) <> ""%string
          end).
Proof.
  split; [| split].
  - vm_compute. split; reflexivity.
  - vm_compute. split; reflexivity.
  - intros H. specialize (H empty_amount_state).
    vm_compute in H. destruct H as [H _]. discriminate H.
Qed.

(** C5, as the code has it: a zero price is not rejected.  With the
    from-price a zero (the other price and the amount finite and
    positive) the outcome is [Converted] with an infinite rate and output
    amount: [Infinity], shown as ["Infinity"], for the zero [+0], and
    [-Infinity], shown as ["-Infinity"], for the zero [-0]; no error
    message is set.  With the to-price a zero the outcome is [Converted]
    with that zero as rate and output amount, shown as ["0.000000"], and
    no error message. *)
Theorem zero_price_is_converted
  (index : Map.t float) (from to amountText : string) (z p : float) :
  is_zero z = true ->
  (0 <? p) = true -> is_finite p = true ->
  (0 <? parseFloat amountText) = true -> is_finite (parseFloat amountText) = true ->
  (Map.get index from = Some z -> Map.get index to = Some p ->
   computeConversion index from to amountText
     = Converted (if get_sign z then neg_infinity else infinity)
                 (if get_sign z then neg_infinity else infinity)
   /\ forall st : AppState,
        currencyPrices (availableCurrencies st) = index ->
        fromCurrency st = from -> toCurrency st = to -> fromAmount st = amountText ->
        exchangeRate (recompute st)
          = Some (if get_sign z then neg_infinity else infinity) /\
        toAmount (recompute st)
          = (if get_sign z then "-Infinity" else "Infinity")%string /\
        error (recompute st) = ""%string)
  /\
  (Map.get index from = Some p -> Map.get index to = Some z ->
   computeConversion index from to amountText = Converted z z
   /\ forall st : AppState,
        currencyPrices (availableCurrencies st) = index ->
        fromCurrency st = from -> toCurrency st = to -> fromAmount st = amountText ->
        exchangeRate (recompute st) = Some z /\
        toAmount (recompute st) = "0.000000"%string /\
        error (recompute st) = ""%string).
Proof.
  intros Hz Hp Hpf Ha Haf.
  destruct (is_zero_cases z Hz) as [-> | ->].
  - change (get_sign 0) with false. cbv iota.
    split; intros Hfrom Hto.
    + destruct (converted_branch index from to amountText 0 p Hfrom Hto
                  (positive_not_nan _ Ha) Ha) as [Hc Hst].
      rewrite (div_positive_zero p Hp), (mul_positive_infinity _ Ha) in Hc, Hst.
      split; [exact Hc | exact Hst].
    + destruct (converted_branch index from to amountText p 0 Hfrom Hto
                  (finite_not_nan _ Haf) Ha) as [Hc Hst].
      rewrite (div_zero_positive p Hp Hpf), (mul_positive_zero _ Ha Haf) in Hc, Hst.
      split; [exact Hc | exact Hst].
  - change (get_sign neg_zero) with true. cbv iota.
    split; intros Hfrom Hto.
    + destruct (converted_branch index from to amountText neg_zero p Hfrom Hto
                  (positive_not_nan _ Ha) Ha) as [Hc Hst].
      rewrite (div_positive_neg_zero p Hp), (mul_positive_neg_infinity _ Ha) in Hc, Hst.
      split; [exact Hc | exact Hst].
    + destruct (converted_branch index from to amountText p neg_zero Hfrom Hto
                  (finite_not_nan _ Haf) Ha) as [Hc Hst].
      rewrite (div_neg_zero_positive p Hp Hpf), (mul_positive_neg_zero _ Ha Haf)
        in Hc, Hst.
      split; [exact Hc | exact Hst].
Qed.

Lemma zero_price_is_converted_witness :
  ((computeConversion zero_price_index "A" "B" "1" = Converted infinity infinity
    /\ forall st : AppState,
         currencyPrices (availableCurrencies st) = zero_price_index ->
         fromCurrency st = "A"%string -> toCurrency st = "B"%string ->
         fromAmount st = "1"%string ->
         exchangeRate (recompute st) = Some infinity /\
         toAmount (recompute st) = "Infinity"%string /\
         error (recompute st) = ""%string)
   /\
   (computeConversion zero_price_index "B" "A" "1" = Converted 0 0
    /\ forall st : AppState,
         currencyPrices (availableCurrencies st) = zero_price_index ->
         fromCurrency st = "B"%string -> toCurrency st = "A"%string ->
         fromAmount st = "1"%string ->
         exchangeRate (recompute st) = Some 0 /\
         toAmount (recompute st) = "0.000000"%string /\
         error (recompute st) = ""%string))
  /\
  ((computeConversion [("A", neg_zero); ("B", 1)]%string "A" "B" "1"
      = Converted neg_infinity neg_infinity
    /\ forall st : AppState,
         currencyPrices (availableCurrencies st) = [("A", neg_zero); ("B", 1)]%string ->
         fromCurrency st = "A"%string -> toCurrency st = "B"%string ->
         fromAmount st = "1"%string ->
         exchangeRate (recompute st) = Some neg_infinity /\
         toAmount (recompute st) = "-Infinity"%string /\
         error (recompute st) = ""%string)
   /\
   (computeConversion [("A", neg_zero); ("B", 1)]%string "B" "A" "1"
      = Converted neg_zero neg_zero
    /\ forall st : AppState,
         currencyPrices (availableCurrencies st) = [("A", neg_zero); ("B", 1)]%string ->
         fromCurrency st = "B"%string -> toCurrency st = "A"%string ->
         fromAmount st = "1"%string ->
         exchangeRate (recompute st) = Some neg_zero /\
         toAmount (recompute st) = "0.000000"%string /\
         error (recompute st) = ""%string)).
Proof.
  split; split.
  - apply (zero_price_is_converted zero_price_index "A" "B" "1" 0 1); reflexivity.
  - apply (zero_price_is_converted zero_price_index "B" "A" "1" 0 1); reflexivity.
  - apply (zero_price_is_converted [("A", neg_zero); ("B", 1)]%string
             "A" "B" "1" neg_zero 1); reflexivity.
  - apply (zero_price_is_converted [("A", neg_zero); ("B", 1)]%string
             "B" "A" "1" neg_zero 1); reflexivity.
Defined.

(** C5 as stated fails: the from-price zero gives [Converted] with an
    infinite rate, not an [InvalidAmount] outcome; the state shows
    ["Infinity"] and no error message. *)
Lemma zero_price_gives_infinity :
  currencyPrices (availableCurrencies zero_price_state) = zero_price_index
  /\ (fromCurrency zero_price_state, toCurrency zero_price_state,
      fromAmount zero_price_state) = ("A", "B", "1")%string
  /\ computeConversion zero_price_index "A" "B" "1" = Converted infinity infinity
  /\ exchangeRate (recompute zero_price_state) = Some infinity
  /\ toAmount (recompute zero_price_state) = "Infinity"%string
  /\ error (recompute zero_price_state) = ""%string.
Proof. vm_compute. repeat split. Qed.

(** C6, as the code has it: the rate of a currency against itself is
    obtained by dividing its price by itself, which is exactly 1 when the
    price is finite and not zero; the amount ["5"] then converts to 5,
    shown as ["5.000000"]. *)
Theorem same_currency_rate_is_one (index : Map.t float) (X : string) (p : float) :
  Map.get index X = Some p ->
  is_finite p = true -> is_zero p = false ->
  computeConversion index X X "5" = Converted 1 5
  /\ forall st : AppState,
       currencyPrices (availableCurrencies st) = index ->
       fromCurrency st = X -> toCurrency st = X -> fromAmount st = "5"%string ->
       exchangeRate (recompute st) = Some 1 /\
       toAmount (recompute st) = "5.000000"%string /\
       error (recompute st) = ""%string.
Proof.
  intros HX Hf Hz.
  destruct (converted_branch index X X "5" p p HX HX eq_refl eq_refl)
    as [Hc Hst].
  rewrite (div_self p Hf Hz) in Hc, Hst.
  split; [exact Hc | exact Hst].
Qed.

Lemma same_currency_rate_is_one_witness :
  computeConversion [("BTC", 51000); ("ETH", 3000)]%string "ETH" "ETH" "5" = Converted 1 5
  /\ forall st : AppState,
       currencyPrices (availableCurrencies st) = [("BTC", 51000); ("ETH", 3000)]%string ->
       fromCurrency st = "ETH"%string -> toCurrency st = "ETH"%string ->
       fromAmount st = "5"%string ->
       exchangeRate (recompute st) = Some 1 /\
       toAmount (recompute st) = "5.000000"%string /\
       error (recompute st) = ""%string.
Proof.
  apply (same_currency_rate_is_one
           [("BTC", 51000); ("ETH", 3000)]%string "ETH" 3000); reflexivity.
Defined.

(** C6 as stated fails: a currency whose stored price is zero has the
    rate [NaN] against itself, not 1, and the state shows ["NaN"]. *)
Lemma same_currency_zero_price_rate_is_nan :
  Map.get zero_price_index "A" = Some 0
  /\ computeConversion zero_price_index "A" "A" "5" = Converted nan nan
  /\ computeConversion zero_price_index "A" "A" "5" <> Converted 1 5
  /\ exchangeRate
       (recompute (handleFromAmountChange "5" (setToCurrency "A" zero_price_state)))
     = Some nan
  /\ toAmount
       (recompute (handleFromAmountChange "5" (setToCurrency "A" zero_price_state)))
     = "NaN"%string.
Proof.
  split; [reflexivity | split; [reflexivity | split]].
  - intros H.
    apply (f_equal (fun r => match r with
                             | Converted rate _ => (rate =? 1)
                             | _ => false
                             end)) in H.
    vm_compute in H. discriminate H.
  - vm_compute. split; reflexivity.
Qed.

(** C2: the feed normalises to the index [{BTC: 51000, ETH: 3000}], as
    stated.  For the amount ["2"] from BTC to ETH the expected result is
    the rate 17 and the output amount 34: one BTC, priced 51000, is worth
    [51000 / 3000 = 17] ETH, priced 3000.  The effect divides the other
    way round ([toPrice / fromPrice], line 192): it stores the rate
    [3000 / 51000], renders the line ["1 BTC = 0.058824 ETH"] and shows
    the output amount ["0.117647"], so its result is not
    [Converted 17 34]. *)
Theorem feed_example :
  (getLatestTokenPrices Date_parse_utc feed
     = [ mkCurrencyPrice "BTC" 51000 "2024-01-02";
         mkCurrencyPrice "ETH" 3000 "2024-01-01" ]
   /\ currencyPrices (getLatestTokenPrices Date_parse_utc feed)
       = [("BTC", 51000); ("ETH", 3000)]%string)
  /\ (51000 / 3000 = 17 /\ parseFloat "2" * 17 = 34)
  /\ (computeConversion (currencyPrices (getLatestTokenPrices Date_parse_utc feed))
         "BTC" "ETH" "2"
       = Converted (3000 / 51000) (2 * (3000 / 51000))
      /\ computeConversion (currencyPrices (getLatestTokenPrices Date_parse_utc feed))
            "BTC" "ETH" "2"
          <> Converted 17 34)
  /\ (exchangeRate (recompute (setFromAmount "2" ready_state)) = Some (3000 / 51000)
      /\ toAmount (recompute (setFromAmount "2" ready_state)) = "0.117647"%string
      /\ error (recompute (setFromAmount "2" ready_state)) = ""%string
      /\ rateLine (formView (recompute (setFromAmount "2" ready_state)))
         = Some "1 BTC = 0.058824 ETH"%string).
Proof.
  split; [| split; [| split]].
  - vm_compute. split; reflexivity.
  - vm_compute. split; reflexivity.
  - split; [vm_compute; reflexivity |].
    intros H.
    apply (f_equal (fun r => match r with
                             | Converted rate _ => (rate =? 17)
                             | _ => false
                             end)) in H.
    vm_compute in H. discriminate H.
  - vm_compute. repeat split.
Qed.

(** The rate from BTC to ETH that the effect computes is not 17 and the
    output amount is not 34. *)
Lemma feed_example_rate_is_not_17 :
  computeConversion (currencyPrices (getLatestTokenPrices Date_parse_utc feed))
    "BTC" "ETH" "2" <> Converted 17 34.
Proof.
  intros H.
  apply (f_equal (fun r => match r with
                           | Converted rate _ => (rate =? 17)
                           | _ => false
                           end)) in H.
  vm_compute in H. discriminate H.
Qed.

End Outcomes.

(** ** The amount input *)

Section AmountInput.

Lemma all_digits_nil : all_digits "".
Proof. constructor. Qed.

Lemma all_digits_cons (c : ascii) (r : string) :
  all_digits (String c r) <-> is_digit c = true /\ all_digits r.
Proof.
  unfold all_digits. cbn [list_ascii_of_string]. split.
  - intros H. inversion H; subst. now split.
  - intros [Hc Hr]. now constructor.
Qed.

(** [\d*] up to the end of the input. *)
Lemma match_digits (s : string) :
  match_here [Star Digit] s = true <-> all_digits s.
Proof.
  induction s as [| c r IH].
  - split; [intros _; apply all_digits_nil | reflexivity].
  - rewrite all_digits_cons, <- IH.
    change (match_here [Star Digit] (String c r))
      with ((is_digit c && match_here [Star Digit] r) || false).
    rewrite orb_false_r, andb_true_iff. reflexivity.
Qed.

(** [\.?\d*] up to the end of the input. *)
Lemma match_point_digits (s : string) :
  match_here [Opt (Char "."); Star Digit] s = true <->
  all_digits s \/ exists b, s = String "." b /\ all_digits b.
Proof.
  destruct s as [| c r].
  - split; [intros _; left; apply all_digits_nil | reflexivity].
  - change (match_here [Opt (Char "."); Star Digit] (String c r))
      with (((c =? ".")%char && match_here [Star Digit] r)
            || match_here [Star Digit] (String c r)).
    rewrite orb_true_iff, andb_true_iff, Ascii.eqb_eq, !match_digits. split.
    + intros [[-> Hr] | H]; [right; now exists r | now left].
    + intros [H | (b & Heq & Hb)]; [now right |].
      injection Heq as -> ->. now left.
Qed.

Lemma match_amount_cons (c : ascii) (r : string) :
  match_here amount_pattern (String c r)
  = (is_digit c && match_here amount_pattern r)
    || match_here [Opt (Char "."); Star Digit] (String c r).
Proof. reflexivity. Qed.

(** The pattern accepts exactly the strings of the grammar. *)
Lemma amount_pattern_grammar (s : string) :
  RegExp_test amount_pattern s = true <-> decimal_grammar s.
Proof.
  unfold RegExp_test, decimal_grammar. split.
  - induction s as [| c r IH].
    + intros _. exists ""%string, ""%string.
      repeat split; try apply all_digits_nil. now left.
    + rewrite match_amount_cons, orb_true_iff, andb_true_iff.
      intros [[Hc Hr] | H].
      * destruct (IH Hr) as (a & b & Ha & Hb & Hs).
        exists (String c a), b. repeat split; trivial.
        -- apply all_digits_cons. now split.
        -- destruct Hs as [-> | ->]; [now left | now right].
      * apply match_point_digits in H. destruct H as [H | (b & Heq & Hb)].
        -- exists ""%string, (String c r).
           repeat split; trivial; [apply all_digits_nil | now left].
        -- exists ""%string, b.
           repeat split; trivial; [apply all_digits_nil | now right].
  - intros (a & b & Ha & Hb & Hs). revert s Hs.
    induction a as [| c a IH]; intros s Hs.
    + assert (H : match_here [Opt (Char "."); Star Digit] s = true).
      { apply match_point_digits. destruct Hs as [-> | ->]; [now left |].
        right. now exists b. }
      destruct s as [| c r]; [exact H |].
      rewrite match_amount_cons, H. apply orb_true_r.
    + apply all_digits_cons in Ha. destruct Ha as [Hc Ha].
      assert (Hr : exists r, s = String c r /\
                     (r = a ++ b \/ r = a ++ "." ++ b)%string).
      { destruct Hs as [-> | ->]; eexists; (split; [reflexivity |]); auto. }
      destruct Hr as (r & -> & Hr).
      rewrite match_amount_cons, Hc, (IH Ha r Hr). reflexivity.
Qed.

Lemma grammar_dec (s : string) : {decimal_grammar s} + {~ decimal_grammar s}.
Proof.
  destruct (RegExp_test amount_pattern s) eqn:E.
  - left. now apply amount_pattern_grammar.
  - right. intros H. apply amount_pattern_grammar in H. congruence.
Qed.

Lemma handleFromAmountChange_accepted (value : string) (st : AppState) :
  decimal_grammar value -> handleFromAmountChange value st = setFromAmount value st.
Proof.
  intros H. apply amount_pattern_grammar in H.
  unfold handleFromAmountChange. now rewrite H.
Qed.

Lemma handleFromAmountChange_rejected (value : string) (st : AppState) :
  ~ decimal_grammar value -> handleFromAmountChange value st = st.
Proof.
  intros H. unfold handleFromAmountChange.
  destruct (RegExp_test amount_pattern value) eqn:E.
  - exfalso. apply H. now apply amount_pattern_grammar.
  - destruct (value =? "")%string eqn:E'; [| reflexivity].
    apply String.eqb_eq in E'. subst value. discriminate E.
Qed.

(** C7: the handler adopts the entered text exactly when it is in the
    grammar [^\d*\.?\d*$] and otherwise leaves the state, hence the
    current text, as it is; it rejects ["1.2.3"], ["abc"], ["-5"] and
    accepts [""], ["0"], ["12.5"], ["."]. *)
Theorem handleFromAmountChange_grammar (st : AppState) (value : string) :
  (decimal_grammar value ->
     handleFromAmountChange value st = setFromAmount value st
     /\ fromAmount (handleFromAmountChange value st) = value)
  /\ (~ decimal_grammar value ->
       handleFromAmountChange value st = st
       /\ fromAmount (handleFromAmountChange value st) = fromAmount st)
  /\ (fromAmount (handleFromAmountChange value st) = value <->
       decimal_grammar value \/ value = fromAmount st)
  /\ Forall (fun rejected => handleFromAmountChange rejected st = st)
            ["1.2.3"; "abc"; "-5"]%string
  /\ Forall (fun accepted => fromAmount (handleFromAmountChange accepted st) = accepted)
            [""; "0"; "12.5"; "."]%string.
Proof.
  split; [| split; [| split; [| split]]].
  - intros H. now rewrite handleFromAmountChange_accepted.
  - intros H. now rewrite handleFromAmountChange_rejected.
  - destruct (grammar_dec value) as [H | H].
    + rewrite handleFromAmountChange_accepted by assumption. cbn. tauto.
    + rewrite handleFromAmountChange_rejected by assumption. split; auto.
      intros [H' | H']; [contradiction | auto].
  - repeat constructor.
  - repeat constructor.
Qed.

End AmountInput.

(** ** The swap *)

Section Swap.

(** C8: swapping twice gives back the original pair of currencies, with
    or without a run of the effect in between; one swap leaves the pair
    exchanged, both fields written in the same update, so the two fields
    are equal after it only if they were equal before it. *)
Theorem handleCurrencySwap_involutive (st : AppState) :
  (fromCurrency (handleCurrencySwap st), toCurrency (handleCurrencySwap st))
    = (toCurrency st, fromCurrency st)
  /\ handleCurrencySwap (handleCurrencySwap st) = st
  /\ (fromCurrency (handleCurrencySwap (recompute (handleCurrencySwap st))),
      toCurrency (handleCurrencySwap (recompute (handleCurrencySwap st))))
     = (fromCurrency st, toCurrency st)
  /\ (fromCurrency (handleCurrencySwap st) = toCurrency (handleCurrencySwap st) ->
      fromCurrency st = toCurrency st)
  /\ (fromCurrency (recompute (handleCurrencySwap st))
       = toCurrency (recompute (handleCurrencySwap st)) ->
      fromCurrency st = toCurrency st).
Proof.
  destruct (recompute_preserves (handleCurrencySwap st))
    as (_ & _ & _ & Hf & Ht & _).
  repeat split.
  - now destruct st.
  - cbn. now rewrite Hf, Ht.
  - cbn. congruence.
  - rewrite Hf, Ht. cbn. congruence.
Qed.

End Swap.

(** ** Facts about [Map] *)

Section MapFacts.

Context {V : Type}.
Implicit Types (m : Map.t V) (k : string) (v : V).

Lemma get_set_same m k v : Map.get (Map.set m k v) k = Some v.
Proof.
  induction m as [| [k' v'] m IH]; cbn.
  - now rewrite String.eqb_refl.
  - destruct (k' =? k)%string eqn:E; cbn.
    + now rewrite String.eqb_refl.
    + now rewrite E.
Qed.

Lemma get_set_other m k k' v :
  k' <> k -> Map.get (Map.set m k v) k' = Map.get m k'.
Proof.
  intros Hne. induction m as [| [k0 v0] m IH]; cbn.
  - destruct (k =? k')%string eqn:E; [| reflexivity].
    apply String.eqb_eq in E. congruence.
  - destruct (k0 =? k)%string eqn:E; cbn.
    + apply String.eqb_eq in E. subst k0.
      destruct (k =? k')%string eqn:E'; [| reflexivity].
      apply String.eqb_eq in E'. congruence.
    + now rewrite IH.
Qed.

Lemma get_none_keys m k : Map.get m k = None <-> ~ In k (Map.keys m).
Proof.
  induction m as [| [k' v'] m IH]; cbn.
  - tauto.
  - destruct (k' =? k)%string eqn:E.
    + apply String.eqb_eq in E. split; [discriminate | intros H; exfalso; auto].
    + apply String.eqb_neq in E. rewrite IH. tauto.
Qed.

Lemma get_some_in m k v : Map.get m k = Some v -> In (k, v) m.
Proof.
  induction m as [| [k' v'] m IH]; cbn; [discriminate |].
  destruct (k' =? k)%string eqn:E.
  - apply String.eqb_eq in E. intros [= ->]. left. now subst.
  - auto.
Qed.

Lemma in_get_some m k v : NoDup (Map.keys m) -> In (k, v) m -> Map.get m k = Some v.
Proof.
  induction m as [| [k' v'] m IH]; cbn; [tauto |].
  intros Hnd [Heq | Hin].
  - injection Heq as -> ->. now rewrite String.eqb_refl.
  - inversion Hnd as [| ? ? Hk Hnd']; subst.
    destruct (k' =? k)%string eqn:E; [| auto].
    apply String.eqb_eq in E. subst k'. exfalso. apply Hk.
    change k with (fst (k, v)). now apply in_map.
Qed.

(** Overwriting keeps the order of the keys; a new key goes last. *)
Lemma keys_set m k v :
  Map.keys (Map.set m k v)
  = match Map.get m k with
    | Some _ => Map.keys m
    | None => (Map.keys m ++ [k])%list
    end.
Proof.
  unfold Map.keys.
  induction m as [| [k' v'] m IH]; cbn; [reflexivity |].
  destruct (k' =? k)%string eqn:E; cbn.
  - apply String.eqb_eq in E. now subst.
  - rewrite IH. now destruct (Map.get m k).
Qed.

End MapFacts.

(** ** Facts about [first_occurrences] *)

Section FirstOccurrences.

Lemma first_occurrences_in (l : list string) (x : string) :
  In x (first_occurrences l) <-> In x l.
Proof.
  induction l as [| a l IH]; cbn; [tauto |].
  rewrite filter_In, IH, negb_true_iff, String.eqb_neq.
  destruct (String.eqb_spec a x); [tauto |].
  split; [tauto |]. intros [H | H]; [tauto | right; split; auto].
Qed.

Lemma first_occurrences_NoDup (l : list string) : NoDup (first_occurrences l).
Proof.
  induction l as [| a l IH]; cbn; constructor.
  - rewrite filter_In, negb_true_iff, String.eqb_neq. tauto.
  - now apply NoDup_filter.
Qed.

Lemma first_occurrences_snoc (l : list string) (x : string) :
  first_occurrences (l ++ [x])%list
  = (first_occurrences l ++ (if in_dec string_dec x l then [] else [x]))%list.
Proof.
  induction l as [| a l IH]; cbn [app first_occurrences].
  - destruct (in_dec string_dec x []) as [[] | _]. reflexivity.
  - rewrite IH, filter_app. cbn [app]. f_equal. f_equal.
    destruct (in_dec string_dec x l) as [Hin | Hnin];
      destruct (in_dec string_dec x (a :: l)) as [Hin' | Hnin'];
      cbn in *; try reflexivity.
    + exfalso. auto.
    + destruct (String.eqb_spec x a); [reflexivity |].
      exfalso. destruct Hin'; [congruence | contradiction].
    + destruct (String.eqb_spec x a); [| reflexivity].
      exfalso. auto.
Qed.

End FirstOccurrences.

(** ** The reduction of the feed *)

Section Reduction.

Variable Date_parse : string -> time_value.

Lemma latestPrices_snoc (l : list CurrencyPrice) (x : CurrencyPrice) :
  latestPrices Date_parse (l ++ [x])
  = keep_latest Date_parse (latestPrices Date_parse l) x.
Proof. unfold latestPrices. now rewrite fold_left_app. Qed.

Lemma Date_gt_irrefl (a : time_value) : Date_gt a a = false.
Proof. destruct a as [x |]; cbn; [apply Z.ltb_irrefl | reflexivity]. Qed.

Lemma Date_gt_not_above (o x v : time_value) :
  Date_gt x v = true -> Date_gt o v = false -> Date_gt o x = false.
Proof.
  destruct o as [a |], x as [b |], v as [c |]; cbn; try discriminate; trivial.
  rewrite !Z.ltb_lt, !Z.ltb_ge. lia.
Qed.

Lemma Date_gt_differs (o x v : time_value) :
  Date_gt x v = true -> Date_gt o v = false -> o <> x.
Proof.
  intros Hx Ho ->. congruence.
Qed.

Lemma keys_keep_latest (m : Map.t Latest) (x : CurrencyPrice) :
  Map.keys (keep_latest Date_parse m x)
  = match Map.get m (currency x) with
    | Some _ => Map.keys m
    | None => (Map.keys m ++ [currency x])%list
    end.
Proof.
  unfold keep_latest.
  destruct (Map.get m (currency x)) as [e |] eqn:E.
  - destruct (Date_gt _ _); [| reflexivity]. now rewrite keys_set, E.
  - now rewrite keys_set, E.
Qed.

(** The keys of [latestPrices] are the currencies in the order in which
    each first occurs. *)
Lemma keys_latest (data : list CurrencyPrice) :
  Map.keys (latestPrices Date_parse data) = first_occurrences (map currency data).
Proof.
  induction data as [| x l IH] using rev_ind; [reflexivity |].
  rewrite latestPrices_snoc, map_app. cbn [map].
  rewrite first_occurrences_snoc, keys_keep_latest, <- IH.
  destruct (Map.get (latestPrices Date_parse l) (currency x)) as [e |] eqn:E;
    destruct (in_dec string_dec (currency x) (map currency l)) as [Hin | Hnin].
  - now rewrite app_nil_r.
  - exfalso. apply get_some_in in E. apply Hnin.
    apply first_occurrences_in. rewrite <- IH.
    change (currency x) with (fst (currency x, e)). now apply in_map.
  - exfalso. apply get_none_keys in E. apply E.
    rewrite IH. now apply first_occurrences_in.
  - reflexivity.
Qed.

Lemma get_keep_latest_other (m : Map.t Latest) (x : CurrencyPrice) (k : string) :
  k <> currency x -> Map.get (keep_latest Date_parse m x) k = Map.get m k.
Proof.
  intros Hne. unfold keep_latest.
  destruct (Map.get m (currency x)) as [e |];
    [destruct (Date_gt _ _); [| reflexivity] |];
    now apply get_set_other.
Qed.

(** Where a stored entry comes from: it is an observation of the input;
    no observation of its currency is later; the observations of its
    currency before it have another time value. *)
Lemma latest_entry (data : list CurrencyPrice) :
  forall (k : string) (v : Latest),
    Map.get (latestPrices Date_parse data) k = Some v ->
    exists l1 l2,
      data = (l1 ++ entry k v :: l2)%list /\
      (forall o, In o l1 -> currency o = k ->
                 Date_parse (date o) <> Date_parse (latest_date v)) /\
      (forall o, In o data -> currency o = k ->
                 later Date_parse (date o) (latest_date v) = false).
Proof.
  unfold later, entry.
  induction data as [| x l IH] using rev_ind; intros k v; [discriminate |].
  rewrite latestPrices_snoc.
  destruct (string_dec k (currency x)) as [-> | Hne].
  - unfold keep_latest.
    destruct (Map.get (latestPrices Date_parse l) (currency x)) as [e0 |] eqn:E.
    + destruct (IH _ _ E) as (l1 & l2 & Hl & Hbefore & Hmax).
      destruct (Date_gt (Date_parse (date x)) (Date_parse (latest_date e0))) eqn:G.
      * rewrite get_set_same. intros [= <-]. cbn [latest_price latest_date].
        exists l, []. split; [now destruct x | split].
        -- intros o Ho Hc. eapply Date_gt_differs; eauto.
        -- intros o Ho Hc. apply in_app_or in Ho. destruct Ho as [Ho | [<- | []]].
           ++ eapply Date_gt_not_above; eauto.
           ++ apply Date_gt_irrefl.
      * rewrite E. intros [= <-].
        exists l1, (l2 ++ [x])%list. split; [| split].
        -- rewrite Hl, <- app_assoc. reflexivity.
        -- exact Hbefore.
        -- intros o Ho Hc. apply in_app_or in Ho. destruct Ho as [Ho | [<- | []]]; auto.
    + cbv iota. rewrite get_set_same. intros [= <-]. cbn [latest_price latest_date].
      assert (Hfresh : forall o, In o l -> currency o <> currency x).
      { intros o Ho Hc. apply get_none_keys in E. apply E.
        rewrite keys_latest. apply first_occurrences_in.
        rewrite <- Hc. now apply in_map. }
      exists l, []. split; [now destruct x | split].
      * intros o Ho Hc. exfalso. eapply Hfresh; eauto.
      * intros o Ho Hc. apply in_app_or in Ho. destruct Ho as [Ho | [<- | []]].
        -- exfalso. eapply Hfresh; eauto.
        -- apply Date_gt_irrefl.
  - rewrite get_keep_latest_other by assumption. intros Hget.
    destruct (IH _ _ Hget) as (l1 & l2 & Hl & Hbefore & Hmax).
    exists l1, (l2 ++ [x])%list. split; [| split].
    + rewrite Hl, <- app_assoc. reflexivity.
    + exact Hbefore.
    + intros o Ho Hc. apply in_app_or in Ho. destruct Ho as [Ho | [<- | []]]; auto.
      congruence.
Qed.

Lemma currencies_of_output (data : list CurrencyPrice) :
  map currency (getLatestTokenPrices Date_parse data)
  = first_occurrences (map currency data).
Proof.
  unfold getLatestTokenPrices, Map.entries. rewrite <- keys_latest.
  unfold Map.keys. rewrite map_map. apply map_ext. now intros [k v].
Qed.

Lemma output_entry (data : list CurrencyPrice) (e : CurrencyPrice) :
  In e (getLatestTokenPrices Date_parse data) ->
  exists v, e = entry (currency e) v /\ Map.get (latestPrices Date_parse data) (currency e) = Some v.
Proof.
  unfold getLatestTokenPrices, Map.entries, entry. intros H.
  apply in_map_iff in H. destruct H as ([k v] & <- & Hin).
  exists v. split; [reflexivity |]. cbn [currency].
  apply in_get_some; [| assumption].
  rewrite keys_latest. apply first_occurrences_NoDup.
Qed.

End Reduction.

(** ** The entries of the reduced feed and the reachable states *)

Section LatestPrices.

Variable Date_parse : string -> time_value.

(** C3, as the code has it: the output has exactly one entry per
    distinct currency of the input; the entry is an observation of the
    input; no observation of its currency has a later date (when the
    dates are valid, its date is the maximum); and an observation of its
    currency that comes before it in the input has another, hence
    earlier, date: among observations sharing the maximum date the FIRST
    in input order is stored, since an entry is replaced only on a
    strictly later date. *)
Theorem getLatestTokenPrices_latest (data : list CurrencyPrice) :
  NoDup (map currency (getLatestTokenPrices Date_parse data))
  /\ (forall c, In c (map currency (getLatestTokenPrices Date_parse data))
                <-> In c (map currency data))
  /\ forall e, In e (getLatestTokenPrices Date_parse data) ->
       exists l1 l2,
         data = (l1 ++ e :: l2)%list /\
         (forall o, In o data -> currency o = currency e ->
                    later Date_parse (date o) (date e) = false) /\
         (forall o, In o l1 -> currency o = currency e ->
                    Date_parse (date o) <> Date_parse (date e)) /\
         (forall o t t', In o data -> currency o = currency e ->
                    Date_parse (date o) = Some t -> Date_parse (date e) = Some t' ->
                    (t <= t')%Z) /\
         (forall o t t', In o l1 -> currency o = currency e ->
                    Date_parse (date o) = Some t -> Date_parse (date e) = Some t' ->
                    (t < t')%Z).
Proof.
  split; [| split].
  - rewrite currencies_of_output. apply first_occurrences_NoDup.
  - intros c. rewrite currencies_of_output. apply first_occurrences_in.
  - intros e He. destruct (output_entry Date_parse data e He) as (v & Hev & Hget).
    destruct (latest_entry Date_parse data _ _ Hget) as (l1 & l2 & Hd & Hbefore & Hmax).
    rewrite <- Hev in Hd.
    assert (Hdate : latest_date v = date e) by (rewrite Hev; reflexivity).
    rewrite Hdate in Hbefore, Hmax.
    assert (Hle : forall o t t', In o data -> currency o = currency e ->
              Date_parse (date o) = Some t -> Date_parse (date e) = Some t' ->
              (t <= t')%Z).
    { intros o t t' Ho Hc Ht Ht'. specialize (Hmax o Ho Hc).
      unfold later in Hmax. rewrite Ht, Ht' in Hmax. cbn in Hmax.
      now apply Z.ltb_ge in Hmax. }
    exists l1, l2. repeat split; trivial.
    intros o t t' Ho Hc Ht Ht'.
    assert (Hin : In o data) by (rewrite Hd; apply in_or_app; now left).
    specialize (Hle o t t' Hin Hc Ht Ht').
    specialize (Hbefore o Ho Hc). rewrite Ht, Ht' in Hbefore.
    assert (t <> t') by congruence. lia.
Qed.

(** C10: every entry of the output is an observation of the input, the
    output lists the currencies in the order of their first occurrence in
    the input, and the initial selection takes the first of them as the
    from-currency and the second (the first when there is no second) as
    the to-currency. *)
Theorem getLatestTokenPrices_verbatim_in_order (data : list CurrencyPrice) :
  (forall e, In e (getLatestTokenPrices Date_parse data) -> In e data)
  /\ map currency (getLatestTokenPrices Date_parse data)
     = first_occurrences (map currency data)
  /\ forall st : AppState,
       availableCurrencies (fetchResolved Date_parse data st)
         = getLatestTokenPrices Date_parse data /\
       match first_occurrences (map currency data) with
       | [] =>
           fromCurrency (fetchResolved Date_parse data st) = fromCurrency st /\
           toCurrency (fetchResolved Date_parse data st) = toCurrency st
       | [c] =>
           fromCurrency (fetchResolved Date_parse data st) = c /\
           toCurrency (fetchResolved Date_parse data st) = c
       | c0 :: c1 :: _ =>
           fromCurrency (fetchResolved Date_parse data st) = c0 /\
           toCurrency (fetchResolved Date_parse data st) = c1
       end.
Proof.
  split; [| split].
  - intros e He. destruct (output_entry Date_parse data e He) as (v & Hev & Hget).
    destruct (latest_entry Date_parse data _ _ Hget) as (l1 & l2 & Hd & _).
    rewrite Hd, Hev. apply in_or_app. right. now left.
  - apply currencies_of_output.
  - intros st. rewrite <- (currencies_of_output Date_parse). unfold fetchResolved.
    destruct (getLatestTokenPrices Date_parse data) as [| e0 [| e1 r]];
      cbn; auto.
Qed.

(** C9: in every reachable state the amount text is in the grammar
    [^\d*\.?\d*$], that is, the pattern of the handler accepts it. *)
Theorem fromAmount_in_grammar (st : AppState) :
  reachable Date_parse st ->
  decimal_grammar (fromAmount st) /\ RegExp_test amount_pattern (fromAmount st) = true.
Proof.
  intros H.
  assert (G : decimal_grammar (fromAmount st)).
  { induction H as [| ev st H IH | st H IH].
    - apply amount_pattern_grammar. reflexivity.
    - destruct ev as [| data | msg | c | c | value |]; cbn [handle]; trivial.
      + unfold fetchResolved.
        destruct (getLatestTokenPrices Date_parse data) as [| e0 [| e1 r]]; exact IH.
      + destruct (grammar_dec value) as [Hv | Hv].
        * now rewrite handleFromAmountChange_accepted.
        * now rewrite handleFromAmountChange_rejected.
    - destruct (recompute_preserves st) as (_ & _ & _ & _ & _ & Ha).
      now rewrite Ha. }
  split; [exact G | now apply amount_pattern_grammar].
Qed.

End LatestPrices.

(** C3 as stated fails: of two observations of a currency with the same
    date, the first one is stored, not the last. *)
Lemma tie_keeps_first_observation :
  getLatestTokenPrices Date_parse_utc tie_feed = [mkCurrencyPrice "A" 1 "2024-01-01"]
  /\ getLatestTokenPrices Date_parse_utc tie_feed <> [mkCurrencyPrice "A" 2 "2024-01-01"].
Proof.
  split; [reflexivity |]. intros H.
  apply (f_equal (fun l => match l with
                           | [e] => (price e =? 2)%float
                           | _ => false
                           end)) in H.
  vm_compute in H. discriminate H.
Qed.

Lemma fromAmount_in_grammar_witness :
  decimal_grammar (fromAmount (handle Date_parse_utc (AmountInput "12.5") initialState))
  /\ RegExp_test amount_pattern
       (fromAmount (handle Date_parse_utc (AmountInput "12.5") initialState)) = true.
Proof.
  apply (fromAmount_in_grammar Date_parse_utc).
  apply reachable_handle. apply reachable_initial.
Defined.

(** ** The price lookup table *)

Section PriceIndex.

Lemma find_snoc {A : Type} (f : A -> bool) (l : list A) (x : A) :
  find f (l ++ [x])%list
  = match find f l with
    | Some y => Some y
    | None => if f x then Some x else None
    end.
Proof.
  induction l as [| a l IH]; cbn; [reflexivity |].
  destruct (f a); [reflexivity | exact IH].
Qed.

Lemma get_fold_prices (l : list CurrencyPrice) (m : Map.t float) (c : string) :
  Map.get (fold_left (fun prices e => Map.set prices (currency e) (price e)) l m) c
  = match find (fun e => (currency e =? c)%string) (rev l) with
    | Some e => Some (price e)
    | None => Map.get m c
    end.
Proof.
  revert m. induction l as [| x l IH]; intros m; [reflexivity |].
  cbn [fold_left rev]. rewrite IH, find_snoc.
  destruct (find _ (rev l)); [reflexivity |].
  destruct (String.eqb_spec (currency x) c) as [<- | Hne].
  - apply get_set_same.
  - apply get_set_other. congruence.
Qed.

(** The table gives a currency the price of the last item of the list
    that carries it, and nothing to a currency that no item carries. *)
Theorem currencyPrices_lookup (l : list CurrencyPrice) (c : string) :
  Map.get (currencyPrices l) c
  = option_map price (find (fun e => (currency e =? c)%string) (rev l)).
Proof.
  unfold currencyPrices. rewrite get_fold_prices.
  now destruct (find _ (rev l)).
Qed.

Lemma currencyPrices_present (l : list CurrencyPrice) (c : string) :
  In c (map currency l) -> exists p, Map.get (currencyPrices l) c <> None /\
                                     Map.get (currencyPrices l) c = Some p.
Proof.
  intros Hin. unfold currencyPrices. rewrite get_fold_prices.
  destruct (find _ (rev l)) as [e |] eqn:E.
  - exists (price e). split; [discriminate | reflexivity].
  - exfalso. apply in_map_iff in Hin. destruct Hin as (e & <- & He).
    apply in_rev in He. apply (find_none _ _ E) in He.
    now rewrite String.eqb_refl in He.
Qed.

Lemma currencyPrices_absent (l : list CurrencyPrice) (c : string) :
  ~ In c (map currency l) -> Map.get (currencyPrices l) c = None.
Proof.
  intros Hnin. unfold currencyPrices. rewrite get_fold_prices.
  destruct (find _ (rev l)) as [e |] eqn:E; [| reflexivity].
  exfalso. apply find_some in E. destruct E as [He Hc].
  apply String.eqb_eq in Hc. apply Hnin. rewrite <- Hc.
  apply in_map. now apply in_rev.
Qed.

Lemma currencyPrices_some (l : list CurrencyPrice) (c : string) (p : float) :
  Map.get (currencyPrices l) c = Some p ->
  exists e, In e l /\ currency e = c /\ price e = p.
Proof.
  unfold currencyPrices. rewrite get_fold_prices.
  destruct (find _ (rev l)) as [e |] eqn:E; [| discriminate].
  intros [= <-]. apply find_some in E. destruct E as [He Hc].
  apply String.eqb_eq in Hc. exists e. repeat split; trivial. now apply in_rev.
Qed.

Lemma NoDup_map_inj {A B : Type} (f : A -> B) (l : list A) (a b : A) :
  NoDup (map f l) -> In a l -> In b l -> f a = f b -> a = b.
Proof.
  induction l as [| x l IH]; cbn; [tauto |].
  intros Hnd Ha Hb Hf. inversion Hnd as [| ? ? Hx Hnd']; subst.
  destruct Ha as [-> | Ha], Hb as [-> | Hb]; trivial.
  - exfalso. apply Hx. rewrite Hf. now apply in_map.
  - exfalso. apply Hx. rewrite <- Hf. now apply in_map.
  - auto.
Qed.

Lemma currencyPrices_of_entry (l : list CurrencyPrice) (e : CurrencyPrice) :
  NoDup (map currency l) -> In e l ->
  Map.get (currencyPrices l) (currency e) = Some (price e).
Proof.
  intros Hnd He.
  destruct (currencyPrices_present l (currency e) (in_map currency _ _ He))
    as (p & _ & Hp).
  destruct (currencyPrices_some l _ _ Hp) as (e' & He' & Hc & Hpe).
  rewrite Hp, <- Hpe. do 2 f_equal.
  exact (NoDup_map_inj currency l e' e Hnd He' He Hc).
Qed.

End PriceIndex.

(** ** The reduced feed as a price index *)

Section ReducedFeed.

Variable Date_parse : string -> time_value.

Lemma output_NoDup (data : list CurrencyPrice) :
  NoDup (map currency (getLatestTokenPrices Date_parse data)).
Proof. rewrite currencies_of_output. apply first_occurrences_NoDup. Qed.

Lemma output_latest (data : list CurrencyPrice) (e : CurrencyPrice) :
  In e (getLatestTokenPrices Date_parse data) ->
  In e data /\
  forall o, In o data -> currency o = currency e ->
            later Date_parse (date o) (date e) = false.
Proof.
  intros He. destruct (output_entry Date_parse data e He) as (v & Hev & Hget).
  destruct (latest_entry Date_parse data _ _ Hget) as (l1 & l2 & Hd & _ & Hmax).
  rewrite <- Hev in Hd.
  assert (Hdate : latest_date v = date e) by (rewrite Hev; reflexivity).
  rewrite Hdate in Hmax. split; [| exact Hmax].
  rewrite Hd. apply in_or_app. right. now left.
Qed.

Lemma price_index_none (data : list CurrencyPrice) (c : string) :
  Map.get (currencyPrices (getLatestTokenPrices Date_parse data)) c = None
  <-> ~ In c (map currency data).
Proof.
  rewrite <- (first_occurrences_in (map currency data)),
    <- (currencies_of_output Date_parse).
  split.
  - intros Hnone Hin.
    destruct (currencyPrices_present _ _ Hin) as (p & Hp & _). contradiction.
  - apply currencyPrices_absent.
Qed.

Lemma price_index_some (data : list CurrencyPrice) (c : string) (p : float) :
  Map.get (currencyPrices (getLatestTokenPrices Date_parse data)) c = Some p ->
  exists e, In e data /\ currency e = c /\ price e = p /\
            forall o, In o data -> currency o = c ->
                      later Date_parse (date o) (date e) = false.
Proof.
  intros Hp. destruct (currencyPrices_some _ _ _ Hp) as (e & He & Hc & Hpe).
  destruct (output_latest data e He) as [Hin Hmax].
  exists e. rewrite <- Hc. repeat split; trivial.
Qed.

(** The price looked up for a currency after the reduction is the price
    of an observation of that currency in the feed than which none is
    later; a currency has no price exactly when the feed has no
    observation of it. *)
Theorem price_index_of_feed (data : list CurrencyPrice) (c : string) :
  (Map.get (currencyPrices (getLatestTokenPrices Date_parse data)) c = None
   <-> ~ In c (map currency data))
  /\ forall p,
       Map.get (currencyPrices (getLatestTokenPrices Date_parse data)) c = Some p ->
       exists e, In e data /\ currency e = c /\ price e = p /\
                 forall o, In o data -> currency o = c ->
                           later Date_parse (date o) (date e) = false.
Proof.
  split; [apply price_index_none | apply price_index_some].
Qed.

Lemma set_fresh {V : Type} (m : Map.t V) (k : string) (v : V) :
  Map.get m k = None -> Map.set m k v = (m ++ [(k, v)])%list.
Proof.
  induction m as [| [k' v'] m IH]; cbn; [reflexivity |].
  destruct (k' =? k)%string; [discriminate |].
  intros H. now rewrite IH.
Qed.

Lemma latestPrices_distinct (l : list CurrencyPrice) :
  NoDup (map currency l) ->
  latestPrices Date_parse l
  = map (fun e => (currency e, mkLatest (price e) (date e))) l.
Proof.
  induction l as [| x l IH] using rev_ind; intros Hnd; [reflexivity |].
  rewrite map_app in Hnd. cbn [map] in Hnd.
  apply NoDup_remove in Hnd. rewrite app_nil_r in Hnd. destruct Hnd as [Hnd Hx].
  rewrite latestPrices_snoc, map_app. cbn [map].
  assert (Hnone : Map.get (latestPrices Date_parse l) (currency x) = None).
  { apply get_none_keys. rewrite keys_latest.
    now rewrite first_occurrences_in. }
  unfold keep_latest. rewrite Hnone, set_fresh by assumption.
  now rewrite IH.
Qed.

(** A list whose currencies are distinct is left as it is by the
    reduction, and only such a list is; so reducing twice is reducing
    once. *)
Theorem getLatestTokenPrices_fixed_point (l : list CurrencyPrice) :
  (getLatestTokenPrices Date_parse l = l <-> NoDup (map currency l))
  /\ getLatestTokenPrices Date_parse (getLatestTokenPrices Date_parse l)
     = getLatestTokenPrices Date_parse l.
Proof.
  assert (Hfix : forall l', NoDup (map currency l') ->
                            getLatestTokenPrices Date_parse l' = l').
  { intros l' Hnd. unfold getLatestTokenPrices, Map.entries.
    rewrite latestPrices_distinct by assumption.
    rewrite map_map. cbn. rewrite <- (map_id l') at 2.
    apply map_ext. now intros []. }
  split; [split |].
  - intros <-. apply output_NoDup.
  - apply Hfix.
  - apply Hfix, output_NoDup.
Qed.

(** When every date of the feed is valid and two observations of one
    currency with the same date have the same price, the price looked up
    for a currency does not depend on the order of the feed. *)
Theorem price_index_order_independent (data data' : list CurrencyPrice) (c : string) :
  Permutation data data' ->
  (forall o, In o data -> Date_parse (date o) <> None) ->
  (forall o1 o2, In o1 data -> In o2 data -> currency o1 = currency o2 ->
                 Date_parse (date o1) = Date_parse (date o2) -> price o1 = price o2) ->
  Map.get (currencyPrices (getLatestTokenPrices Date_parse data)) c
  = Map.get (currencyPrices (getLatestTokenPrices Date_parse data')) c.
Proof.
  intros Hperm Hvalid Hsame.
  assert (Hmem : forall o, In o data' -> In o data).
  { intros o. apply Permutation_in. now apply Permutation_sym. }
  assert (Hcur : In c (map currency data) <-> In c (map currency data')).
  { split; apply Permutation_in; [| apply Permutation_sym]; now apply Permutation_map. }
  destruct (Map.get (currencyPrices (getLatestTokenPrices Date_parse data)) c)
    as [p |] eqn:E;
    destruct (Map.get (currencyPrices (getLatestTokenPrices Date_parse data')) c)
      as [p' |] eqn:E'; trivial.
  - destruct (price_index_some _ _ _ E) as (e & He & Hc & Hp & Hmax).
    destruct (price_index_some _ _ _ E') as (e' & He' & Hc' & Hp' & Hmax').
    apply Hmem in He'. rewrite <- Hp, <- Hp'. f_equal.
    apply Hsame; trivial; [congruence |].
    specialize (Hmax e' He' Hc').
    specialize (Hmax' e (Permutation_in _ Hperm He) Hc).
    pose proof (Hvalid e He) as Hv. pose proof (Hvalid e' He') as Hv'.
    unfold later in Hmax, Hmax'.
    destruct (Date_parse (date e)) as [t |]; [| contradiction].
    destruct (Date_parse (date e')) as [t' |]; [| contradiction].
    cbn in Hmax, Hmax'. apply Z.ltb_ge in Hmax, Hmax'. f_equal. lia.
  - exfalso. apply price_index_none in E'. apply E', Hcur.
    destruct (price_index_some _ _ _ E) as (e & He & Hc & _).
    rewrite <- Hc. now apply in_map.
  - exfalso. apply price_index_none in E. apply E, Hcur.
    destruct (price_index_some _ _ _ E') as (e & He & Hc & _).
    rewrite <- Hc. now apply in_map.
Qed.

End ReducedFeed.

Lemma price_index_order_independent_witness :
  Map.get (currencyPrices (getLatestTokenPrices Date_parse_utc feed)) "BTC"
  = Map.get (currencyPrices (getLatestTokenPrices Date_parse_utc (rev feed))) "BTC".
Proof.
  apply (price_index_order_independent Date_parse_utc feed (rev feed) "BTC").
  - apply Permutation_rev.
  - intros o [<- | [<- | [<- | []]]]; discriminate.
  - intros o1 o2 [<- | [<- | [<- | []]]] [<- | [<- | [<- | []]]];
      intros Hc Hd; try reflexivity; discriminate.
Defined.

(** ** The effect, run again and after a swap *)

Section EffectFacts.

Local Open Scope float_scope.

Lemma AppState_ext (st1 st2 : AppState) :
  availableCurrencies st1 = availableCurrencies st2 ->
  loading st1 = loading st2 ->
  fetchError st1 = fetchError st2 ->
  fromCurrency st1 = fromCurrency st2 ->
  toCurrency st1 = toCurrency st2 ->
  fromAmount st1 = fromAmount st2 ->
  toAmount st1 = toAmount st2 ->
  exchangeRate st1 = exchangeRate st2 ->
  error st1 = error st2 ->
  swapSuccess st1 = swapSuccess st2 ->
  st1 = st2.
Proof. destruct st1, st2; cbn; intros; subst; reflexivity. Qed.

Lemma recompute_writes (st1 st2 : AppState) :
  currencyPrices (availableCurrencies st1) = currencyPrices (availableCurrencies st2) ->
  fromCurrency st1 = fromCurrency st2 ->
  toCurrency st1 = toCurrency st2 ->
  fromAmount st1 = fromAmount st2 ->
  loading st1 = loading st2 ->
  exchangeRate (recompute st1) = exchangeRate (recompute st2) /\
  toAmount (recompute st1) = toAmount (recompute st2) /\
  error (recompute st1) = error (recompute st2) /\
  swapSuccess (recompute st1) = swapSuccess (recompute st2).
Proof.
  intros Hp Hf Ht Ha Hl. unfold recompute. cbv zeta.
  rewrite Hp, Hf, Ht, Ha, Hl.
  destruct (Map.get (currencyPrices (availableCurrencies st2)) (fromCurrency st2)),
           (Map.get (currencyPrices (availableCurrencies st2)) (toCurrency st2));
    repeat match goal with |- context [if ?b then _ else _] => destruct b end;
    repeat split.
Qed.

(** Running the effect a second time changes nothing. *)
Theorem recompute_idempotent (st : AppState) :
  recompute (recompute st) = recompute st.
Proof.
  destruct (recompute_preserves st) as (Hav & Hl & Hfe & Hf & Ht & Ha).
  destruct (recompute_preserves (recompute st)) as (Hav' & Hl' & Hfe' & Hf' & Ht' & Ha').
  destruct (recompute_writes (recompute st) st) as (Wr & Wt & We & Ws);
    try congruence.
  apply AppState_ext; congruence.
Qed.

(** What the effect writes is determined by the values listed as its
    dependencies: two states that agree on the price table, the two
    currencies, the amount text and the loading flag get the same rate,
    output text, error message and success flag. *)
Theorem recompute_depends_on_dependencies (st1 st2 : AppState) :
  currencyPrices (availableCurrencies st1) = currencyPrices (availableCurrencies st2) ->
  fromCurrency st1 = fromCurrency st2 ->
  toCurrency st1 = toCurrency st2 ->
  fromAmount st1 = fromAmount st2 ->
  loading st1 = loading st2 ->
  exchangeRate (recompute st1) = exchangeRate (recompute st2) /\
  toAmount (recompute st1) = toAmount (recompute st2) /\
  error (recompute st1) = error (recompute st2) /\
  swapSuccess (recompute st1) = swapSuccess (recompute st2).
Proof. exact (recompute_writes st1 st2). Qed.

Lemma recompute_depends_on_dependencies_witness :
  exchangeRate (recompute ready_state)
    = exchangeRate (recompute (setToAmount "stale" (setError "old" ready_state))) /\
  toAmount (recompute ready_state)
    = toAmount (recompute (setToAmount "stale" (setError "old" ready_state))) /\
  error (recompute ready_state)
    = error (recompute (setToAmount "stale" (setError "old" ready_state))) /\
  swapSuccess (recompute ready_state)
    = swapSuccess (recompute (setToAmount "stale" (setError "old" ready_state))).
Proof.
  apply (recompute_depends_on_dependencies
           ready_state (setToAmount "stale" (setError "old" ready_state)));
    reflexivity.
Defined.

Lemma recompute_rate (st : AppState) :
  exchangeRate (recompute st)
  = match Map.get (currencyPrices (availableCurrencies st)) (fromCurrency st),
          Map.get (currencyPrices (availableCurrencies st)) (toCurrency st) with
    | Some fromPrice, Some toPrice => Some (toPrice / fromPrice)
    | _, _ => None
    end.
Proof.
  unfold recompute. cbv zeta.
  destruct (Map.get (currencyPrices (availableCurrencies st)) (fromCurrency st)),
           (Map.get (currencyPrices (availableCurrencies st)) (toCurrency st));
    repeat match goal with |- context [if ?b then _ else _] => destruct b end;
    reflexivity.
Qed.

(** After a swap the effect computes the rate with the two prices
    exchanged, and it finds a rate after the swap exactly when it found
    one before. *)
Theorem swap_exchanges_the_prices (st : AppState) :
  (exchangeRate (recompute (handleCurrencySwap st)) = None
   <-> exchangeRate (recompute st) = None)
  /\ forall fromPrice toPrice,
       Map.get (currencyPrices (availableCurrencies st)) (fromCurrency st)
         = Some fromPrice ->
       Map.get (currencyPrices (availableCurrencies st)) (toCurrency st)
         = Some toPrice ->
       exchangeRate (recompute st) = Some (toPrice / fromPrice) /\
       exchangeRate (recompute (handleCurrencySwap st)) = Some (fromPrice / toPrice).
Proof.
  rewrite !recompute_rate.
  change (availableCurrencies (handleCurrencySwap st)) with (availableCurrencies st).
  change (fromCurrency (handleCurrencySwap st)) with (toCurrency st).
  change (toCurrency (handleCurrencySwap st)) with (fromCurrency st).
  destruct (Map.get (currencyPrices (availableCurrencies st)) (fromCurrency st)),
           (Map.get (currencyPrices (availableCurrencies st)) (toCurrency st));
    (split; [split; intros H; (discriminate H || reflexivity) |]);
    intros fp tp Hf Ht; (discriminate Hf || discriminate Ht || idtac).
  injection Hf as <-. injection Ht as <-. split; reflexivity.
Qed.

End EffectFacts.

(** ** The fetch and the states it leads to *)

Section FetchFacts.

Local Open Scope float_scope.

Variable Date_parse : string -> time_value.

Lemma output_nonempty (data : list CurrencyPrice) :
  data <> [] -> getLatestTokenPrices Date_parse data <> [].
Proof.
  destruct data as [| x l]; [congruence |]. intros _ H.
  apply (f_equal (map currency)) in H.
  rewrite currencies_of_output in H. discriminate H.
Qed.

(** What the effect finds once a feed has been fetched, in terms of the
    first entries of the reduced feed. *)
Lemma rate_after_fetch (data : list CurrencyPrice) (st : AppState)
  (e0 : CurrencyPrice) (rest : list CurrencyPrice) :
  getLatestTokenPrices Date_parse data = e0 :: rest ->
  let st' := fetchResolved Date_parse data st in
  availableCurrencies st' = e0 :: rest /\
  fromCurrency st' = currency e0 /\
  toCurrency st' = currency (hd e0 rest) /\
  fromAmount st' = fromAmount st /\
  loading st' = false /\
  Map.get (currencyPrices (availableCurrencies st')) (fromCurrency st')
    = Some (price e0) /\
  Map.get (currencyPrices (availableCurrencies st')) (toCurrency st')
    = Some (price (hd e0 rest)).
Proof.
  intros Hout. pose proof (output_NoDup Date_parse data) as Hnd.
  unfold fetchResolved. rewrite Hout in *.
  assert (H0 : In e0 (e0 :: rest)) by now left.
  assert (H1 : In (hd e0 rest) (e0 :: rest)).
  { destruct rest as [| e1 r]; [now left | right; now left]. }
  destruct rest as [| e1 r]; cbn [hd] in *; cbn -[currencyPrices];
    repeat split; now apply currencyPrices_of_entry.
Qed.

(** When the reduced feed is not empty, the first run of the effect
    after the fetch selects its first currency and its second one (the
    first again when there is no second), finds the rate between them,
    and, the amount still being the default ["1.0"] and no fetch error
    being recorded, shows the form with the converted value of one unit
    and no error alert. *)
Theorem conversion_after_fetch (data : list CurrencyPrice) (st : AppState)
  (e0 : CurrencyPrice) (rest : list CurrencyPrice) :
  getLatestTokenPrices Date_parse data = e0 :: rest ->
  fromAmount st = "1.0"%string ->
  fetchError st = None ->
  let st' := recompute (fetchResolved Date_parse data st) in
  let rate := price (hd e0 rest) / price e0 in
  fromCurrency st' = currency e0 /\
  toCurrency st' = currency (hd e0 rest) /\
  exchangeRate st' = Some rate /\
  render st' = SwapForm (formView st') /\
  toAmountValue (formView st') = toFixed (1 * rate) 6 /\
  errorAlert (formView st') = None.
Proof.
  intros Hout Hamt Hnone st' rate.
  destruct (rate_after_fetch data st e0 rest Hout)
    as (Hav & Hf & Ht & Ha & Hl & Hgf & Hgt).
  destruct (recompute_preserves (fetchResolved Date_parse data st))
    as (Pav & Pl & Pfe & Pf & Pt & Pa).
  destruct (converted_branch _ _ _ "1.0" _ _ Hgf Hgt eq_refl eq_refl) as [_ Hst].
  rewrite Hamt in Ha.
  destruct (Hst (fetchResolved Date_parse data st) eq_refl eq_refl eq_refl Ha)
    as (Hr & Hto & He).
  change (parseFloat "1.0") with 1 in Hto.
  assert (Hfe : fetchError (fetchResolved Date_parse data st) = fetchError st).
  { unfold fetchResolved. rewrite Hout. destruct rest as [| e1 r]; reflexivity. }
  subst st' rate. split; [congruence | split; [congruence | split; [exact Hr |]]].
  split; [| split].
  - unfold render. now rewrite Pl, Hl, Pfe, Hfe, Hnone.
  - exact Hto.
  - unfold formView. cbn [errorAlert]. now rewrite He.
Qed.

(** After the fetch of a feed that is not empty the effect always finds a
    rate, whatever the state before, and never reports that the rate is
    not available. *)
Theorem rate_available_after_fetch (data : list CurrencyPrice) (st : AppState) :
  data <> [] ->
  (exists rate, exchangeRate (recompute (fetchResolved Date_parse data st)) = Some rate)
  /\ error (recompute (fetchResolved Date_parse data st)) <> rate_unavailable_message.
Proof.
  intros Hne. apply output_nonempty in Hne.
  destruct (getLatestTokenPrices Date_parse data) as [| e0 rest] eqn:Hout;
    [congruence |].
  destruct (rate_after_fetch data st e0 rest Hout)
    as (_ & _ & _ & _ & _ & Hgf & Hgt).
  pose proof (recompute_by_outcome (fetchResolved Date_parse data st)) as H.
  unfold computeConversion in H. rewrite Hgf, Hgt in H. cbv zeta in H.
  destruct (negb _ && _) in H; destruct H as (Hr & _ & He); rewrite Hr, He;
    (split; [eexists; reflexivity | discriminate]).
Qed.

End FetchFacts.

Lemma conversion_after_fetch_witness :
  fromCurrency (recompute ready_state) = "BTC"%string /\
  toCurrency (recompute ready_state) = "ETH"%string /\
  exchangeRate (recompute ready_state) = Some (3000 / 51000)%float /\
  render (recompute ready_state) = SwapForm (formView (recompute ready_state)) /\
  toAmountValue (formView (recompute ready_state))
    = toFixed (1 * (3000 / 51000))%float 6 /\
  errorAlert (formView (recompute ready_state)) = None.
Proof.
  apply (conversion_after_fetch Date_parse_utc feed (fetchStarted initialState)
           (mkCurrencyPrice "BTC" 51000 "2024-01-02")
           [mkCurrencyPrice "ETH" 3000 "2024-01-01"]); reflexivity.
Defined.

Lemma rate_available_after_fetch_witness :
  (exists rate,
     exchangeRate (recompute (fetchResolved Date_parse_utc tie_feed empty_amount_state))
     = Some rate)
  /\ error (recompute (fetchResolved Date_parse_utc tie_feed empty_amount_state))
     <> rate_unavailable_message.
Proof.
  apply (rate_available_after_fetch Date_parse_utc tie_feed empty_amount_state).
  discriminate.
Defined.

(** ** Invariants of the reachable states *)

Section Invariants.

Variable Date_parse : string -> time_value.

(** The handlers leave the four fields that the effect writes alone. *)
Lemma handle_preserves_outputs (ev : event) (st : AppState) :
  toAmount (handle Date_parse ev st) = toAmount st /\
  exchangeRate (handle Date_parse ev st) = exchangeRate st /\
  error (handle Date_parse ev st) = error st /\
  swapSuccess (handle Date_parse ev st) = swapSuccess st.
Proof.
  destruct ev as [| data | msg | c | c | value |]; cbn [handle];
    try (repeat split; reflexivity).
  - unfold fetchResolved.
    destruct (getLatestTokenPrices Date_parse data) as [| e0 [| e1 r]];
      repeat split.
  - unfold handleFromAmountChange.
    destruct (RegExp_test amount_pattern value || (value =? "")%string);
      repeat split.
Qed.

Lemma recompute_outputs_consistent (st : AppState) :
  swapSuccess (recompute st) = false /\
  (error (recompute st) <> ""%string -> toAmount (recompute st) = ""%string) /\
  (exchangeRate (recompute st) = None -> toAmount (recompute st) = ""%string).
Proof.
  split; [| split].
  - unfold recompute. cbv zeta.
    destruct (Map.get (currencyPrices (availableCurrencies st)) (fromCurrency st)),
             (Map.get (currencyPrices (availableCurrencies st)) (toCurrency st));
      repeat match goal with |- context [if ?b then _ else _] => destruct b end;
      reflexivity.
  - pose proof (recompute_by_outcome st) as H.
    destruct (computeConversion _ _ _ _); destruct H as (_ & Ha & He); trivial.
    intros Hne. congruence.
  - pose proof (recompute_by_outcome st) as H.
    destruct (computeConversion _ _ _ _); destruct H as (Hr & Ha & _); trivial.
    intros Hn. congruence.
Qed.

(** In every reachable state the success flag is off, so the success
    banner is never rendered, and the output amount is empty whenever an
    error message is set or no rate is set: the form never shows an error
    alert next to a converted amount. *)
Theorem outputs_consistent (st : AppState) :
  reachable Date_parse st ->
  swapSuccess st = false /\
  (error st <> ""%string -> toAmount st = ""%string) /\
  (exchangeRate st = None -> toAmount st = ""%string) /\
  successBanner (formView st) = false /\
  (errorAlert (formView st) <> None -> toAmountValue (formView st) = ""%string).
Proof.
  intros H.
  assert (I : swapSuccess st = false /\
              (error st <> ""%string -> toAmount st = ""%string) /\
              (exchangeRate st = None -> toAmount st = ""%string)).
  { induction H as [| ev st H IH | st H IH].
    - repeat split.
    - destruct (handle_preserves_outputs ev st) as (Ha & Hr & He & Hs).
      rewrite Ha, Hr, He, Hs. exact IH.
    - apply recompute_outputs_consistent. }
  destruct I as (Hs & He & Hr). repeat split; trivial.
  unfold formView. cbn [errorAlert toAmountValue]. unfold truthy.
  destruct (String.eqb_spec (error st) ""); cbn; [congruence | auto].
Qed.

(** In every reachable state the currencies of the list offered by the
    pickers are pairwise distinct, as the list keys of the rendered items
    must be. *)
Theorem availableCurrencies_distinct (st : AppState) :
  reachable Date_parse st -> NoDup (map currency (availableCurrencies st)).
Proof.
  induction 1 as [| ev st H IH | st H IH].
  - constructor.
  - destruct ev as [| data | msg | c | c | value |]; cbn [handle]; trivial.
    + unfold fetchResolved.
      pose proof (output_NoDup Date_parse data) as Hnd.
      destruct (getLatestTokenPrices Date_parse data) as [| e0 [| e1 r]]; exact Hnd.
    + unfold handleFromAmountChange.
      destruct (RegExp_test amount_pattern value || (value =? "")%string); exact IH.
  - destruct (recompute_preserves st) as (Hav & _). now rewrite Hav.
Qed.

(** Once a fetch has failed, whatever happens next, short of a new fetch
    being started, the component renders the fetch error screen. *)
Theorem fetch_error_screen_persists (msg : string) (evs : list event) (st : AppState) :
  forallb (fun ev => negb (is_fetch_started ev)) evs = true ->
  exists m, render (run Date_parse evs (recompute (fetchFailed msg st)))
            = FetchErrorScreen m.
Proof.
  intros Hevs.
  assert (P : forall st0,
             (loading st0 = false /\
              exists m, fetchError st0 = Some m /\ truthy m = true) ->
             loading (run Date_parse evs st0) = false /\
             exists m, fetchError (run Date_parse evs st0) = Some m /\ truthy m = true).
  { unfold run. induction evs as [| ev evs IH]; intros st0 Hst0; [exact Hst0 |].
    cbn [forallb] in Hevs. apply andb_true_iff in Hevs. destruct Hevs as [Hev Hevs].
    cbn [fold_left]. apply (IH Hevs).
    destruct (recompute_preserves (handle Date_parse ev st0)) as (_ & Hl & Hfe & _).
    rewrite Hl, Hfe. destruct Hst0 as (Hl0 & m & Hm & Ht).
    destruct ev as [| data | msg' | c | c | value |]; cbn [handle];
      try discriminate Hev; try (split; [exact Hl0 | now exists m]).
    - unfold fetchResolved.
      destruct (getLatestTokenPrices Date_parse data) as [| e0 [| e1 r]];
        (split; [reflexivity | now exists m]).
    - split; [reflexivity |]. eexists. split; reflexivity.
    - unfold handleFromAmountChange.
      destruct (RegExp_test amount_pattern value || (value =? "")%string);
        (split; [exact Hl0 | now exists m]). }
  destruct (P (recompute (fetchFailed msg st))) as (Hl & m & Hm & Ht).
  { destruct (recompute_preserves (fetchFailed msg st)) as (_ & Hl & Hfe & _).
    rewrite Hl, Hfe. split; [reflexivity |]. eexists. split; reflexivity. }
  exists m. unfold render. now rewrite Hl, Hm, Ht.
Qed.

End Invariants.

Lemma outputs_consistent_witness :
  swapSuccess (recompute empty_amount_state) = false /\
  (error (recompute empty_amount_state) <> ""%string ->
   toAmount (recompute empty_amount_state) = ""%string) /\
  (exchangeRate (recompute empty_amount_state) = None ->
   toAmount (recompute empty_amount_state) = ""%string) /\
  successBanner (formView (recompute empty_amount_state)) = false /\
  (errorAlert (formView (recompute empty_amount_state)) <> None ->
   toAmountValue (formView (recompute empty_amount_state)) = ""%string).
Proof.
  apply (outputs_consistent Date_parse_utc).
  apply reachable_effect.
  apply (reachable_handle Date_parse_utc (AmountInput "")).
  apply (reachable_handle Date_parse_utc (FetchResolved feed)).
  apply (reachable_handle Date_parse_utc FetchStarted).
  apply reachable_initial.
Defined.

Lemma availableCurrencies_distinct_witness :
  NoDup (map currency (availableCurrencies ready_state)).
Proof.
  apply (availableCurrencies_distinct Date_parse_utc).
  apply (reachable_handle Date_parse_utc (FetchResolved feed)).
  apply (reachable_handle Date_parse_utc FetchStarted).
  apply reachable_initial.
Defined.

Lemma fetch_error_screen_persists_witness :
  exists m,
    render (run Date_parse_utc [FetchResolved feed; AmountInput "2"; SwapClick]
              (recompute (fetchFailed "HTTP error status: 500" initialState)))
    = FetchErrorScreen m.
Proof.
  apply (fetch_error_screen_persists Date_parse_utc). reflexivity.
Defined.

(** ** The currency picker *)

Section Picker.

Lemma append_empty_r (s : string) : (s ++ "")%string = s.
Proof. induction s as [| c r IH]; cbn; [reflexivity | now rewrite IH]. Qed.

Lemma includes_empty (s : string) : includes s "" = true.
Proof. destruct s; reflexivity. Qed.

Lemma toLowerCase_char_idempotent (c : ascii) :
  toLowerCase_char (toLowerCase_char c) = toLowerCase_char c.
Proof.
  destruct c as [[] [] [] [] [] [] [] []]; reflexivity.
Qed.

Lemma toLowerCase_idempotent (s : string) :
  toLowerCase (toLowerCase s) = toLowerCase s.
Proof.
  induction s as [| c r IH]; cbn; [reflexivity |].
  now rewrite toLowerCase_char_idempotent, IH.
Qed.

Lemma toLowerCase_append (s t : string) :
  toLowerCase (s ++ t) = (toLowerCase s ++ toLowerCase t)%string.
Proof. induction s as [| c r IH]; cbn; [reflexivity | now rewrite IH]. Qed.

Lemma prefix_iff (t s : string) :
  String.prefix t s = true <-> exists b, s = (t ++ b)%string.
Proof.
  revert t. induction s as [| d s IH]; intros [| c t]; cbn.
  - split; [intros _; now exists ""%string | reflexivity].
  - split; [discriminate | intros (b & Hb); discriminate Hb].
  - split; [intros _; now exists (String d s) | reflexivity].
  - destruct (ascii_dec c d) as [-> | Hne].
    + rewrite IH. split; intros (b & Hb); exists b; congruence.
    + split; [discriminate | intros (b & Hb); congruence].
Qed.

(** [includes] is the occurrence of [t] as a contiguous part of [s]. *)
Lemma includes_iff (s t : string) :
  includes s t = true <-> exists a b, s = (a ++ t ++ b)%string.
Proof.
  induction s as [| c r IH]; cbn [includes].
  - rewrite orb_false_r, prefix_iff. split.
    + intros (b & Hb). now exists ""%string, b.
    + intros (a & b & Hab). destruct a; [now exists b | discriminate].
  - rewrite orb_true_iff, prefix_iff, IH. split.
    + intros [(b & Hb) | (a & b & Hab)].
      * now exists ""%string, b.
      * exists (String c a), b. cbn. now rewrite Hab.
    + intros (a & b & Hab). destruct a as [| d a].
      * left. now exists b.
      * right. exists a, b. cbn in Hab. congruence.
Qed.

Lemma filter_empty_search (l : list CurrencyPrice) :
  filteredCurrencies l "" = l.
Proof.
  unfold filteredCurrencies. apply forallb_filter_id.
  apply forallb_forall. intros e _. apply includes_empty.
Qed.

(** With an empty search term the picker lists every currency, in the
    order of the list it is given. *)
Theorem filteredCurrencies_empty_search (l : list CurrencyPrice) :
  filteredCurrencies l "" = l.
Proof. exact (filter_empty_search l). Qed.

(** The search ignores the letter case of the term: a term and its
    lower-case form list the same currencies, and so do two terms that
    differ only in letter case. *)
Theorem filteredCurrencies_ignores_case (l : list CurrencyPrice) (s t : string) :
  filteredCurrencies l (toLowerCase s) = filteredCurrencies l s
  /\ (toLowerCase s = toLowerCase t -> filteredCurrencies l s = filteredCurrencies l t).
Proof.
  unfold filteredCurrencies. split.
  - now rewrite toLowerCase_idempotent.
  - now intros ->.
Qed.

(** A currency is listed exactly when it is one of the available ones
    and its code, letter case apart, contains the search term as a
    contiguous part; in particular a search for the code of an available
    currency lists it. *)
Theorem filteredCurrencies_lists (l : list CurrencyPrice) (t : string)
  (e : CurrencyPrice) :
  (In e (filteredCurrencies l t) <->
   In e l /\ exists a b, toLowerCase (currency e) = (a ++ toLowerCase t ++ b)%string)
  /\ (In e l -> In e (filteredCurrencies l (currency e))).
Proof.
  unfold filteredCurrencies. split.
  - now rewrite filter_In, includes_iff.
  - intros He. apply filter_In. split; [exact He |].
    apply includes_iff. exists ""%string, ""%string.
    cbn. now rewrite append_empty_r.
Qed.

(** The items a picker shows are available currencies. *)
Lemma listItems_available (s : side) (ui : UIState) (item : CurrencyPrice) :
  In item (listItems s ui) ->
  isOpen s ui = true /\ In item (availableCurrencies (appState ui)).
Proof.
  unfold listItems, filteredCurrencies.
  destruct (isOpen s ui); [| intros []].
  intros H. apply filter_In in H. now split.
Qed.

(** Clicking an item of an open list selects the currency of that item
    for that side only, closes the list and clears its search term, so
    that the list shows every available currency when it is opened
    again. *)
Theorem itemClick_selects (s : side) (i : nat) (ui : UIState) (item : CurrencyPrice) :
  nth_error (listItems s ui) i = Some item ->
  In item (availableCurrencies (appState ui)) /\
  match s with
  | FromSide =>
      fromCurrency (appState (itemClick s i ui)) = currency item /\
      toCurrency (appState (itemClick s i ui)) = toCurrency (appState ui)
  | ToSide =>
      toCurrency (appState (itemClick s i ui)) = currency item /\
      fromCurrency (appState (itemClick s i ui)) = fromCurrency (appState ui)
  end /\
  isOpen s (itemClick s i ui) = false /\
  listItems s (setIsOpen s true (itemClick s i ui))
    = availableCurrencies (appState ui).
Proof.
  intros Hnth. pose proof (nth_error_In _ _ Hnth) as Hin.
  apply listItems_available in Hin. destruct Hin as [_ Hin].
  unfold itemClick. rewrite Hnth.
  split; [exact Hin |].
  destruct s; cbn; (split; [split; reflexivity | split; [reflexivity |]]);
    unfold listItems; cbn; apply filter_empty_search.
Qed.

End Picker.

Lemma itemClick_selects_witness :
  In (mkCurrencyPrice "BTC" 51000 "2024-01-02")
     (availableCurrencies (appState searching_state)) /\
  (toCurrency (appState (itemClick ToSide 0 searching_state)) = "BTC"%string /\
   fromCurrency (appState (itemClick ToSide 0 searching_state))
     = fromCurrency (appState searching_state)) /\
  isOpen ToSide (itemClick ToSide 0 searching_state) = false /\
  listItems ToSide (setIsOpen ToSide true (itemClick ToSide 0 searching_state))
    = availableCurrencies (appState searching_state).
Proof.
  apply (itemClick_selects ToSide 0 searching_state
           (mkCurrencyPrice "BTC" 51000 "2024-01-02")).
  reflexivity.
Defined.

(** ** The states reached through the pickers *)

Section PickerStates.

Local Open Scope float_scope.

Variable Date_parse : string -> time_value.

Lemma ui_handle_selection (ev : ui_event) (ui : UIState) :
  let avail := availableCurrencies (appState ui) in
  let avail' := availableCurrencies (appState (ui_handle Date_parse ev ui)) in
  (avail <> [] -> In (fromCurrency (appState ui)) (map currency avail) /\
                  In (toCurrency (appState ui)) (map currency avail)) ->
  avail' <> [] ->
  In (fromCurrency (appState (ui_handle Date_parse ev ui))) (map currency avail') /\
  In (toCurrency (appState (ui_handle Date_parse ev ui))) (map currency avail').
Proof.
  cbv zeta. intros IH.
  destruct ev as [| data | msg | s | s value | s i | target | value |];
    cbn [ui_handle].
  - exact IH.
  - unfold withApp, fetchResolved. cbn [appState].
    destruct (getLatestTokenPrices Date_parse data) as [| e0 [| e1 r]]; cbn.
    + congruence.
    + auto.
    + auto.
  - exact IH.
  - destruct s; exact IH.
  - destruct s; exact IH.
  - unfold itemClick.
    destruct (nth_error (listItems s ui) i) as [item |] eqn:E; [| exact IH].
    apply nth_error_In, listItems_available in E. destruct E as [_ Hin].
    destruct s; cbn; intros Hne; destruct (IH Hne) as [Hf Ht]; split;
      solve [assumption | now apply in_map].
  - unfold handleClickOutside.
    destruct target as [[] |]; cbn; exact IH.
  - unfold withApp, handleFromAmountChange. cbn [appState].
    destruct (RegExp_test amount_pattern value || (value =? "")%string); exact IH.
  - cbn. intros Hne. destruct (IH Hne). now split.
Qed.

(** When the currencies are chosen with the pickers, the two selected
    currencies are always among the available ones as soon as there are
    any; the effect then finds a rate and never reports that the rate is
    not available. *)
Theorem picker_selection_available (ui : UIState) :
  ui_reachable Date_parse ui ->
  availableCurrencies (appState ui) <> [] ->
  In (fromCurrency (appState ui)) (map currency (availableCurrencies (appState ui))) /\
  In (toCurrency (appState ui)) (map currency (availableCurrencies (appState ui))) /\
  (exists rate, exchangeRate (recompute (appState ui)) = Some rate) /\
  error (recompute (appState ui)) <> rate_unavailable_message.
Proof.
  intros H.
  assert (I : availableCurrencies (appState ui) <> [] ->
              In (fromCurrency (appState ui))
                 (map currency (availableCurrencies (appState ui))) /\
              In (toCurrency (appState ui))
                 (map currency (availableCurrencies (appState ui)))).
  { induction H as [| ev ui H IH | ui H IH].
    - cbn. congruence.
    - now apply ui_handle_selection.
    - cbn [withApp appState].
      destruct (recompute_preserves (appState ui)) as (Hav & _ & _ & Hf & Ht & _).
      now rewrite Hav, Hf, Ht. }
  intros Hne. destruct (I Hne) as [Hf Ht]. split; [exact Hf | split; [exact Ht |]].
  destruct (currencyPrices_present _ _ Hf) as (fp & _ & Hgf).
  destruct (currencyPrices_present _ _ Ht) as (tp & _ & Hgt).
  pose proof (recompute_by_outcome (appState ui)) as Ho.
  unfold computeConversion in Ho. rewrite Hgf, Hgt in Ho. cbv zeta in Ho.
  destruct (negb _ && _) in Ho; destruct Ho as (Hr & _ & He); rewrite Hr, He;
    (split; [eexists; reflexivity | discriminate]).
Qed.

End PickerStates.

Lemma picker_selection_available_witness :
  In (fromCurrency (appState (itemClick ToSide 0 searching_state)))
     (map currency (availableCurrencies (appState (itemClick ToSide 0 searching_state)))) /\
  In (toCurrency (appState (itemClick ToSide 0 searching_state)))
     (map currency (availableCurrencies (appState (itemClick ToSide 0 searching_state)))) /\
  (exists rate,
     exchangeRate (recompute (appState (itemClick ToSide 0 searching_state))) = Some rate) /\
  error (recompute (appState (itemClick ToSide 0 searching_state)))
    <> rate_unavailable_message.
Proof.
  apply (picker_selection_available Date_parse_utc).
  - apply (ui_reachable_handle Date_parse_utc (ItemClick ToSide 0)).
    unfold searching_state. repeat apply ui_reachable_handle.
    apply ui_reachable_initial.
  - discriminate.
Defined.

(** ** Typing an amount *)

Section Typing.

Local Open Scope float_scope.

Lemma all_digits_append (x y : string) :
  all_digits (x ++ y) <-> all_digits x /\ all_digits y.
Proof.
  induction x as [| c x IH]; cbn [append].
  - split; [intros H; split; [apply all_digits_nil | exact H] | now intros [_ H]].
  - rewrite !all_digits_cons, IH. tauto.
Qed.

Lemma append_split (s t a u : string) :
  (s ++ t = a ++ u)%string ->
  (exists w, a = s ++ w /\ t = w ++ u)%string \/
  (exists w, s = a ++ w /\ u = w ++ t)%string.
Proof.
  revert a. induction s as [| c s IH]; intros a H; cbn in H.
  - left. exists a. now split.
  - destruct a as [| d a]; cbn in H.
    + right. exists (String c s). now split.
    + injection H as -> H. destruct (IH a H) as [(w & -> & ->) | (w & -> & ->)].
      * left. now exists w.
      * right. now exists w.
Qed.

Lemma grammar_prefix (s t : string) :
  decimal_grammar (s ++ t) -> decimal_grammar s.
Proof.
  intros (a & b & Ha & Hb & [H | H]).
  - assert (Hs : all_digits (s ++ t)).
    { rewrite H. apply all_digits_append. now split. }
    apply all_digits_append in Hs. destruct Hs as [Hs _].
    exists s, ""%string. repeat split; trivial; [apply all_digits_nil |].
    left. now rewrite append_empty_r.
  - destruct (append_split s t a _ H) as [(w & -> & _) | (w & -> & Hw)].
    + apply all_digits_append in Ha. destruct Ha as [Hs _].
      exists s, ""%string. repeat split; trivial; [apply all_digits_nil |].
      left. now rewrite append_empty_r.
    + destruct w as [| c w]; cbn in Hw.
      * exists a, ""%string. repeat split; trivial; [apply all_digits_nil |]. now left.
      * injection Hw as <- ->. apply all_digits_append in Hb. destruct Hb as [Hw _].
        exists a, w. repeat split; trivial. now right.
Qed.

(** Every beginning of an accepted text is accepted: an amount can be
    typed one character after the other, and deleted from its end, with
    no keystroke refused on the way. *)
Theorem typing_prefix_accepted (s t : string) (st : AppState) :
  RegExp_test amount_pattern (s ++ t) = true ->
  RegExp_test amount_pattern s = true /\
  fromAmount (handleFromAmountChange s st) = s.
Proof.
  intros H. apply amount_pattern_grammar, grammar_prefix in H.
  split; [now apply amount_pattern_grammar |].
  now rewrite handleFromAmountChange_accepted.
Qed.

Lemma span_digits_zeros (n : nat) : span_digits (zeros n) = (zeros n, ""%string).
Proof. induction n as [| n IH]; cbn; [reflexivity | now rewrite IH]. Qed.

Lemma span_digits_zeros_point (n : nat) (r : string) :
  span_digits (zeros n ++ String "." r) = (zeros n, String "." r).
Proof. induction n as [| n IH]; cbn; [reflexivity | now rewrite IH]. Qed.

Lemma digits_value_zeros (n : nat) : digits_value 0 (zeros n) = 0%Z.
Proof. induction n as [| n IH]; cbn; [reflexivity | exact IH]. Qed.

Lemma zeros_append (a b : nat) : (zeros a ++ zeros b)%string = zeros (a + b).
Proof. induction a as [| a IH]; cbn; [reflexivity | now rewrite IH]. Qed.

Lemma parseFloat_zero_head (r : string) :
  parseFloat (String "0" r) = literal2number false (unsigned_literal (String "0" r)).
Proof. reflexivity. Qed.

Lemma parseFloat_point_head (r : string) :
  parseFloat (String "." r) = literal2number false (unsigned_literal (String "." r)).
Proof. reflexivity. Qed.

Lemma unsigned_literal_zeros (a : nat) :
  unsigned_literal (zeros (S a)) = Some (LitDecimal 0 0).
Proof.
  unfold unsigned_literal.
  change (prefix "Infinity" (zeros (S a))) with false. cbv iota.
  rewrite span_digits_zeros, digits_value_zeros. reflexivity.
Qed.

Lemma unsigned_literal_zeros_point (a b : nat) :
  unsigned_literal (zeros a ++ String "." (zeros b))
  = if ((a + b)%nat =? 0)%nat then None
    else Some (LitDecimal 0 (- Z.of_nat (String.length (zeros b)))).
Proof.
  unfold unsigned_literal.
  assert (Hp : prefix "Infinity" (zeros a ++ String "." (zeros b)) = false)
    by (destruct a; reflexivity).
  rewrite Hp, span_digits_zeros_point. cbv iota beta.
  rewrite span_digits_zeros, zeros_append, digits_value_zeros.
  destruct a as [| a]; [destruct b as [| b] |]; reflexivity.
Qed.

(** A text of zeros, with or without a decimal point, parses to zero,
    or to [NaN] when it has no digit at all. *)
Lemma parseFloat_zeros (a b : nat) :
  (parseFloat (zeros a) = nan \/ parseFloat (zeros a) = 0) /\
  (parseFloat (zeros a ++ "." ++ zeros b) = nan \/
   parseFloat (zeros a ++ "." ++ zeros b) = 0).
Proof.
  split.
  - destruct a as [| a]; [now left | right].
    change (zeros (S a)) with (String "0" (zeros a)).
    rewrite parseFloat_zero_head.
    change (String "0" (zeros a)) with (zeros (S a)).
    now rewrite unsigned_literal_zeros.
  - assert (H : parseFloat (zeros a ++ "." ++ zeros b)
                = literal2number false (unsigned_literal (zeros a ++ "." ++ zeros b))).
    { destruct a as [| a]; [apply parseFloat_point_head | apply parseFloat_zero_head]. }
    rewrite H. change (zeros a ++ "." ++ zeros b)%string
      with (zeros a ++ String "." (zeros b))%string.
    rewrite unsigned_literal_zeros_point.
    destruct ((a + b)%nat =? 0)%nat; [now left | now right].
Qed.

(** An amount made of zeros only, with or without a decimal point (so
    also the empty text and the lone point), is reported as invalid: the
    output amount is cleared and the message set, while the rate of the
    two selected currencies stays displayed. *)
Theorem zero_amount_is_invalid (st : AppState) (a b : nat) (fromPrice toPrice : float) :
  fromAmount st = zeros a \/ fromAmount st = (zeros a ++ "." ++ zeros b)%string ->
  Map.get (currencyPrices (availableCurrencies st)) (fromCurrency st) = Some fromPrice ->
  Map.get (currencyPrices (availableCurrencies st)) (toCurrency st) = Some toPrice ->
  RegExp_test amount_pattern (fromAmount st) = true /\
  exchangeRate (recompute st) = Some (toPrice / fromPrice) /\
  toAmount (recompute st) = ""%string /\
  error (recompute st) = invalid_amount_message.
Proof.
  intros Hamt Hf Ht.
  assert (Hg : decimal_grammar (fromAmount st)).
  { assert (Hz : forall n, all_digits (zeros n)).
    { induction n as [| n IH]; [apply all_digits_nil |].
      apply all_digits_cons. now split. }
    destruct Hamt as [-> | ->].
    - exists (zeros a), ""%string. repeat split; auto using all_digits_nil.
      left. now rewrite append_empty_r.
    - exists (zeros a), (zeros b). repeat split; auto. }
  split; [now apply amount_pattern_grammar |].
  assert (Hinv : negb (isNaN (parseFloat (fromAmount st)))
                 && (0 <? parseFloat (fromAmount st)) = false).
  { destruct (parseFloat_zeros a b) as [H1 H2].
    destruct Hamt as [-> | ->]; [destruct H1 as [-> | ->] | destruct H2 as [-> | ->]];
      reflexivity. }
  unfold recompute. cbv zeta. rewrite Hf, Ht, Hinv. repeat split.
Qed.

End Typing.

Lemma typing_prefix_accepted_witness :
  RegExp_test amount_pattern "12." = true /\
  fromAmount (handleFromAmountChange "12." ready_state) = "12."%string.
Proof.
  apply (typing_prefix_accepted "12." "5" ready_state). reflexivity.
Defined.

Lemma zero_amount_is_invalid_witness :
  RegExp_test amount_pattern (fromAmount (handleFromAmountChange "00.0" ready_state)) = true /\
  exchangeRate (recompute (handleFromAmountChange "00.0" ready_state))
    = Some (3000 / 51000)%float /\
  toAmount (recompute (handleFromAmountChange "00.0" ready_state)) = ""%string /\
  error (recompute (handleFromAmountChange "00.0" ready_state)) = invalid_amount_message.
Proof.
  apply (zero_amount_is_invalid (handleFromAmountChange "00.0" ready_state) 2 1
           51000%float 3000%float).
  - right. reflexivity.
  - reflexivity.
  - reflexivity.
Defined.

(** ** A feed that grows, and the component while it loads *)

Section GrowingFeed.

Variable Date_parse : string -> time_value.

Lemma find_entries (m : Map.t Latest) (c : string) :
  find (fun e => (currency e =? c)%string)
       (map (fun '(k, v) => mkCurrencyPrice k (latest_price v) (latest_date v)) m)
  = option_map (entry c) (Map.get m c).
Proof.
  induction m as [| [k v] m IH]; cbn; [reflexivity |].
  destruct (String.eqb_spec k c) as [-> | Hne]; [reflexivity | exact IH].
Qed.

Lemma stored_entry (data : list CurrencyPrice) (c : string) :
  find (fun e => (currency e =? c)%string) (getLatestTokenPrices Date_parse data)
  = option_map (entry c) (Map.get (latestPrices Date_parse data) c).
Proof. apply find_entries. Qed.

Lemma price_of_stored (data : list CurrencyPrice) (c : string) :
  Map.get (currencyPrices (getLatestTokenPrices Date_parse data)) c
  = option_map latest_price (Map.get (latestPrices Date_parse data) c).
Proof.
  destruct (Map.get (latestPrices Date_parse data) c) as [v |] eqn:E; cbn.
  - assert (Hin : In (entry c v) (getLatestTokenPrices Date_parse data)).
    { pose proof (stored_entry data c) as H. rewrite E in H. cbn in H.
      now apply find_some in H. }
    exact (currencyPrices_of_entry _ _ (output_NoDup Date_parse data) Hin).
  - apply currencyPrices_absent. rewrite currencies_of_output.
    rewrite <- (keys_latest Date_parse). now apply get_none_keys.
Qed.

(** One more observation at the end of the feed changes the price of its
    own currency only: it sets it when the currency is new or when its
    date is later than the date of the entry stored so far, and leaves
    the stored price otherwise. *)
Theorem appended_observation (data : list CurrencyPrice) (x : CurrencyPrice)
  (c : string) :
  Map.get (currencyPrices (getLatestTokenPrices Date_parse (data ++ [x]))) c
  = if (currency x =? c)%string then
      match find (fun e => (currency e =? c)%string)
                 (getLatestTokenPrices Date_parse data) with
      | Some e => Some (if later Date_parse (date x) (date e)
                        then price x else price e)
      | None => Some (price x)
      end
    else Map.get (currencyPrices (getLatestTokenPrices Date_parse data)) c.
Proof.
  rewrite !price_of_stored, stored_entry, latestPrices_snoc.
  destruct (String.eqb_spec (currency x) c) as [<- | Hne].
  - unfold keep_latest, later.
    destruct (Map.get (latestPrices Date_parse data) (currency x)) as [e0 |] eqn:E;
      cbn [option_map entry date].
    + destruct (Date_gt _ _); [now rewrite get_set_same | now rewrite E].
    + now rewrite get_set_same.
  - rewrite get_keep_latest_other by congruence. reflexivity.
Qed.

Lemma loading_effect (st : AppState) :
  loading st = true -> availableCurrencies st = [] ->
  loading (recompute st) = true /\
  availableCurrencies (recompute st) = [] /\
  exchangeRate (recompute st) = None /\
  toAmount (recompute st) = ""%string /\
  error (recompute st) = ""%string.
Proof.
  intros Hl Hav. destruct (recompute_preserves st) as (Pav & Pl & _).
  rewrite Pav, Pl. split; [exact Hl | split; [exact Hav |]].
  unfold recompute. rewrite Hav, Hl. cbn.
  rewrite !andb_false_r. repeat split.
Qed.

(** Until the fetch is settled the component shows the loading screen,
    and whatever is selected, typed or swapped meanwhile, the effect sets
    no rate, no output amount and no error message. *)
Theorem loading_until_settled (evs : list event) :
  forallb (fun ev => negb (is_fetch_settled ev)) evs = true ->
  let st := run Date_parse evs (recompute initialState) in
  render st = LoadingScreen /\
  exchangeRate st = None /\ toAmount st = ""%string /\ error st = ""%string.
Proof.
  intros Hevs st.
  assert (P : forall st0,
             (loading st0 = true /\ availableCurrencies st0 = [] /\
              exchangeRate st0 = None /\ toAmount st0 = ""%string /\
              error st0 = ""%string) ->
             loading (run Date_parse evs st0) = true /\
             availableCurrencies (run Date_parse evs st0) = [] /\
             exchangeRate (run Date_parse evs st0) = None /\
             toAmount (run Date_parse evs st0) = ""%string /\
             error (run Date_parse evs st0) = ""%string).
  { unfold run. induction evs as [| ev evs IH]; intros st0 Hst0; [exact Hst0 |].
    cbn [forallb] in Hevs. apply andb_true_iff in Hevs. destruct Hevs as [Hev Hevs].
    cbn [fold_left]. apply (IH Hevs).
    destruct Hst0 as (Hl & Hav & _).
    apply loading_effect;
      destruct ev as [| data | msg | c | c | value |]; cbn [handle];
      try discriminate Hev; trivial;
      unfold handleFromAmountChange;
      destruct (RegExp_test amount_pattern value || (value =? "")%string); trivial. }
  destruct (P (recompute initialState)) as (Hl & _ & Hr & Ha & He).
  { apply loading_effect; reflexivity. }
  subst st. unfold render. rewrite Hl. repeat split; assumption.
Qed.

End GrowingFeed.

Lemma loading_until_settled_witness :
  render (run Date_parse_utc [FetchStarted; SelectFrom "BTC"; AmountInput "2"; SwapClick]
            (recompute initialState)) = LoadingScreen /\
  exchangeRate (run Date_parse_utc [FetchStarted; SelectFrom "BTC"; AmountInput "2"; SwapClick]
                  (recompute initialState)) = None /\
  toAmount (run Date_parse_utc [FetchStarted; SelectFrom "BTC"; AmountInput "2"; SwapClick]
              (recompute initialState)) = ""%string /\
  error (run Date_parse_utc [FetchStarted; SelectFrom "BTC"; AmountInput "2"; SwapClick]
           (recompute initialState)) = ""%string.
Proof.
  apply (loading_until_settled Date_parse_utc
           [FetchStarted; SelectFrom "BTC"; AmountInput "2"; SwapClick]).
  reflexivity.
Defined.
